(** * Market-signal derivation pipeline of [bot.py]

    A shallow embedding of the pure helpers of the bot ([ema], [calc_vwap],
    [volume_spike], [parse_intraday]), of the news de-duplication performed by
    [get_news] and [news_loop], of the options-flow summary computed by
    [polygon_options_flow], and of the message composition of [price_loop].

    Python values are modelled as follows.
    - [float] is an IEEE 754 binary64 number: Rocq's primitive [float].
    - [int] is an unbounded integer: [Z].
    - A raised exception is an explicit result [Raise e]; a returned value is
      [Ok v]; [None] is [Ok None] for functions of type [Optional[...]].
    - A decoded JSON document is a value of type [json]. *)

From stdpp Require Import base option list sorting gmap sets strings pretty.
From Stdlib Require Import ZArith Lia Bool Ascii.
From Stdlib Require Import OrdersEx.
From Stdlib Require Import PrimFloat SpecFloat FloatOps FloatAxioms.

#[local] Set Warnings "-clear-no-such-hyp,-inexact-float".

Local Open Scope Z_scope.

(** ** Exceptions and results *)

Inductive exn : Set :=
  | ZeroDivisionError
  | OverflowError
  | IndexError
  | KeyError
  | TypeError
  | ValueError
  | AttributeError.

Inductive res (A : Type) : Type :=
  | Ok (a : A)
  | Raise (e : exn).
Arguments Ok {A} a.
Arguments Raise {A} e.

#[global] Instance res_ret : MRet res := fun A a => Ok a.
#[global] Instance res_bind : MBind res := fun A B f m =>
  match m with
  | Ok a => f a
  | Raise e => Raise e
  end.

(** [try: body except Exception: return d]. *)
Definition try_except {A} (body : res A) (d : A) : res A :=
  match body with
  | Ok a => Ok a
  | Raise _ => Ok d
  end.

(** ** Python arithmetic on [float] and [int] *)

Module Py.

(** Converting an [int] to a [float] rounds to nearest-even and raises
    [OverflowError] when the rounded magnitude would reach [2^1024], that is
    when [|n| >= 2^1024 - 2^970]. *)
Definition float_limit : Z := 2 ^ 1024 - 2 ^ 970.

Definition in_float_range (n : Z) : Prop := Z.abs n < float_limit.

Definition in_float_rangeb (n : Z) : bool := Z.abs n <? float_limit.

(** The [float] nearest to the [int] [n] (ties to even). *)
Definition to_float (n : Z) : float :=
  SF2Prim (binary_normalize prec emax n 0 false).

Definition float_of_int (n : Z) : res float :=
  if in_float_rangeb n then Ok (to_float n) else Raise OverflowError.

Definition sf_of_int (n : Z) : spec_float :=
  match n with
  | Z0 => S754_zero false
  | Zpos p => S754_finite false p 0
  | Zneg p => S754_finite true p 0
  end.

(** [a / b] on two [int]s: the correctly rounded quotient;
    [ZeroDivisionError] when [b = 0], [OverflowError] when the rounded
    quotient would reach [2^1024]. *)
Definition int_truediv (a b : Z) : res float :=
  if b =? 0 then Raise ZeroDivisionError
  else if Z.abs a <? float_limit * Z.abs b
  then Ok (SF2Prim (SFdiv prec emax (sf_of_int a) (sf_of_int b)))
  else Raise OverflowError.

(** [x / y] on two [float]s. *)
Definition float_div (x y : float) : res float :=
  if (y =? 0)%float then Raise ZeroDivisionError else Ok (x / y)%float.

(** [x / n] and [n / x] with [n] an [int]: [n] is converted first. A
    non-zero [int] never converts to [0.0]. *)
Definition float_div_int (x : float) (n : Z) : res float :=
  nf ← float_of_int n;
  if n =? 0 then Raise ZeroDivisionError else Ok (x / nf)%float.

Definition int_div_float (n : Z) (y : float) : res float :=
  nf ← float_of_int n; float_div nf y.

(** [x * n] with [n] an [int]. *)
Definition float_mul_int (x : float) (n : Z) : res float :=
  nf ← float_of_int n; Ok (x * nf)%float.

(** Truthiness of a [float]: everything except [0.0] and [-0.0]. *)
Definition float_truthy (x : float) : bool := negb (x =? 0)%float.

(** [l[-n:]] for [n > 0]. *)
Definition last_n {A} (n : nat) (l : list A) : list A :=
  drop (length l - n) l.

(** [l[-a:-b]] for [a, b > 0]. *)
Definition slice_neg {A} (a b : nat) (l : list A) : list A :=
  let start := (length l - a)%nat in
  let stop := (length l - b)%nat in
  take (stop - start) (drop start l).

(** [l[0]] and [l[-1]]. *)
Definition index0 {A} (l : list A) : res A :=
  match l with
  | [] => Raise IndexError
  | x :: _ => Ok x
  end.

Definition index_last {A} (l : list A) : res A :=
  match last l with
  | Some x => Ok x
  | None => Raise IndexError
  end.

(** [sum] over a list of [int]s. *)
Definition sum (l : list Z) : Z := foldl Z.add 0 l.

(** [not l] for a list. *)
Definition is_empty {A} (l : list A) : bool :=
  match l with
  | [] => true
  | _ :: _ => false
  end.

(** [int(x)] for a [float]: truncation towards zero; [ValueError] on a NaN,
    [OverflowError] on an infinity. *)
Definition int_of_float (x : float) : res Z :=
  match Prim2SF x with
  | S754_nan => Raise ValueError
  | S754_infinity _ => Raise OverflowError
  | S754_zero _ => Ok 0
  | S754_finite s m e => Ok (cond_Zopp s (Z.shiftl (Zpos m) e))
  end.

End Py.

(** ** Indicator engine *)

(** The body of the loop [for x in series[1:]: e = x * k + e * (1 - k)]. *)
Fixpoint ema_loop (k e : float) (xs : list float) : float :=
  match xs with
  | [] => e
  | x :: xs' => ema_loop k (x * k + e * (1 - k))%float xs'
  end.

(** [ema(series, period)]. The smoothing constant is computed before the seed
    is read. *)
Definition ema (series : list float) (period : Z) : res (option float) :=
  if Z.of_nat (length series) <? period then Ok None
  else
    k ← Py.int_truediv 2 (period + 1);
    e ← Py.index0 series;
    Ok (Some (ema_loop k e (drop 1 series))).

(** A (high, low, close) triple. *)
Definition hlc : Type := float * float * float.

(** The loop of [calc_vwap] over [zip(prices, volumes)], threading the two
    accumulators [cum_pv] and [cum_v]. *)
Fixpoint vwap_loop (cum_pv : float) (cum_v : Z) (bars : list (hlc * Z))
  : res (float * Z) :=
  match bars with
  | [] => Ok (cum_pv, cum_v)
  | ((h, l, c), v) :: rest =>
      typical ← Py.float_div (h + l + c)%float 3%float;
      pv ← Py.float_mul_int typical v;
      vwap_loop (cum_pv + pv)%float (cum_v + v) rest
  end.

(** [calc_vwap(prices, volumes)]. *)
Definition calc_vwap (prices : list hlc) (volumes : list Z) : res (option float) :=
  if Py.is_empty prices || Py.is_empty volumes
     || negb (length prices =? length volumes)%nat
  then Ok None
  else
    acc ← vwap_loop 0%float 0 (zip prices volumes);
    let '(cum_pv, cum_v) := acc in
    if cum_v =? 0 then Ok None
    else r ← Py.float_div_int cum_pv cum_v; Ok (Some r).

(** [volume_spike(vols)]. *)
Definition volume_spike (vols : list Z) : res (option (float * Z)) :=
  if (length vols <? 25)%nat then Ok None
  else
    baseline ← Py.int_div_float (Py.sum (Py.slice_neg 25 5 vols)) 20%float;
    current ← Py.index_last vols;
    if (baseline <=? 0)%float then Ok None
    else
      ratio ← Py.int_div_float current baseline;
      if (2 <=? ratio)%float then Ok (Some (ratio, current)) else Ok None.

(** ** Decoded JSON documents

    What [r.json()] returns. A [JDict] lists the entries of a Python [dict] in
    insertion order; its keys are pairwise distinct. [JNull] is [None], which
    is also what [fetch_json] returns when the transfer fails. *)

#[warnings="-register-all"]
Inductive json : Type :=
  | JNull
  | JBool (b : bool)
  | JInt (n : Z)
  | JFloat (x : float)
  | JStr (s : string)
  | JList (l : list json)
  | JDict (d : list (string * json)).

(** The conversions of text that the program leaves to Python's builtins:
    [float(s)] and [int(s)] on a [str] ([None] stands for [ValueError]), and
    the format specifications [.1f], [.2f], [+.2f] and the default rendering
    of an [int] used in the price message. *)
Class Builtins : Type := {
  float_of_str : string → option float;
  int_of_str : string → option Z;
  fmt_1f : float → string;
  fmt_2f : float → string;
  fmt_signed_2f : float → string;
  fmt_int : Z → string
}.

Module PyJson.

(** [bool(j)]. *)
Definition truthy (j : json) : bool :=
  match j with
  | JNull => false
  | JBool b => b
  | JInt n => negb (n =? 0)
  | JFloat x => Py.float_truthy x
  | JStr s => negb (String.eqb s "")
  | JList l => negb (Py.is_empty l)
  | JDict d => negb (Py.is_empty d)
  end.

(** [a or b]. *)
Definition or (a b : json) : json := if truthy a then a else b.

(** Lookup in the entries of a [dict]. *)
Fixpoint lookup (key : string) (d : list (string * json)) : option json :=
  match d with
  | [] => None
  | (k, v) :: rest => if String.eqb k key then Some v else lookup key rest
  end.

(** [j.get(key, dflt)]: only a [dict] has the method. *)
Definition get (j : json) (key : string) (dflt : json) : res json :=
  match j with
  | JDict d => Ok (default dflt (lookup key d))
  | _ => Raise AttributeError
  end.

(** [j[key]] with a [str] key. *)
Definition subscript (j : json) (key : string) : res json :=
  match j with
  | JDict d =>
      match lookup key d with
      | Some v => Ok v
      | None => Raise KeyError
      end
  | _ => Raise TypeError
  end.

(** [j.items()]. *)
Definition items (j : json) : res (list (string * json)) :=
  match j with
  | JDict d => Ok d
  | _ => Raise AttributeError
  end.

Fixpoint chars (s : string) : list json :=
  match s with
  | EmptyString => []
  | String c s' => JStr (String c EmptyString) :: chars s'
  end.

(** The elements that [for x in j] visits: the elements of a list, the keys
    of a [dict], the characters of a [str]. *)
Definition iter (j : json) : res (list json) :=
  match j with
  | JList l => Ok l
  | JDict d => Ok (map (fun kv => JStr (fst kv)) d)
  | JStr s => Ok (chars s)
  | _ => Raise TypeError
  end.

(** [j == s] for a [str] literal [s]. *)
Definition eq_str (j : json) (s : string) : bool :=
  match j with
  | JStr t => String.eqb t s
  | _ => false
  end.

(** [float(j)]. *)
Definition to_float `{Builtins} (j : json) : res float :=
  match j with
  | JFloat x => Ok x
  | JInt n => Py.float_of_int n
  | JBool b => Ok (if b then 1 else 0)%float
  | JStr s =>
      match float_of_str s with
      | Some x => Ok x
      | None => Raise ValueError
      end
  | JNull | JList _ | JDict _ => Raise TypeError
  end.

(** [int(j)]. *)
Definition to_int `{Builtins} (j : json) : res Z :=
  match j with
  | JInt n => Ok n
  | JBool b => Ok (if b then 1 else 0)
  | JFloat x => Py.int_of_float x
  | JStr s =>
      match int_of_str s with
      | Some n => Ok n
      | None => Raise ValueError
      end
  | JNull | JList _ | JDict _ => Raise TypeError
  end.

End PyJson.

(** ** Bar series parser *)

(** The result of [parse_intraday]: closes, (high, low, close) triples,
    volumes, and the last close. *)
Definition parsed : Type := list float * list hlc * list Z * float.

(** [sorted(ts.items(), key=lambda kv: kv[0])]: a stable sort on the
    timestamp strings, compared as Python compares [str] values. *)
Fixpoint insert_by_key (x : string * json) (l : list (string * json))
  : list (string * json) :=
  match l with
  | [] => [x]
  | y :: l' =>
      if String.ltb (fst y) (fst x) then y :: insert_by_key x l'
      else x :: y :: l'
  end.

Definition sorted_by_key (l : list (string * json)) : list (string * json) :=
  foldr insert_by_key [] l.

(** One pass of the loop body: the four conversions, in the order in which
    the source performs them. *)
Definition float_field `{Builtins} (v : json) (key : string) : res float :=
  j ← PyJson.subscript v key; PyJson.to_float j.

Definition bar_fields `{Builtins} (v : json) : res (float * float * float * Z) :=
  close ← float_field v "4. close";
  high ← float_field v "2. high";
  low ← float_field v "3. low";
  volf ← float_field v "5. volume";
  vol ← Py.int_of_float volf;
  Ok (close, high, low, vol).

Fixpoint parse_loop `{Builtins} (items : list (string * json))
    (closes : list float) (hlcs : list hlc) (vols : list Z)
  : res (list float * list hlc * list Z) :=
  match items with
  | [] => Ok (closes, hlcs, vols)
  | (_, v) :: rest =>
      f ← bar_fields v;
      let '(close, high, low, vol) := f in
      parse_loop rest (closes ++ [close]) (hlcs ++ [(high, low, close)])
                 (vols ++ [vol])
  end.

(** The body of the [try] block. *)
Definition parse_intraday_body `{Builtins} (series_json : json)
  : res (option parsed) :=
  got ← PyJson.get series_json "Time Series (1min)" JNull;
  let ts := PyJson.or got (JDict []) in
  if negb (PyJson.truthy ts) then Ok None
  else
    its ← PyJson.items ts;
    r ← parse_loop (sorted_by_key its) [] [] [];
    let '(closes, hlcs, vols) := r in
    last_close ← Py.index_last closes;
    Ok (Some (closes, hlcs, vols, last_close)).

Definition parse_intraday `{Builtins} (series_json : json) : res (option parsed) :=
  try_except (parse_intraday_body series_json) None.

(** ** News de-duplication *)

(** An entry of the news feed. The provider's fields are strings; [None]
    stands for a field that is absent or [null]. [f_ticker_sentiment] holds
    the [ticker] field of each entry of [ticker_sentiment]. *)
Record feed_item : Type := FeedItem {
  f_uuid : option string;
  f_url : option string;
  f_title : option string;
  f_ticker_sentiment : list (option string)
}.

(** The normalised item that [get_news] builds. *)
Record news_item : Type := NewsItem {
  id : string;
  headline : string;
  url : option string;
  tickers : list string
}.

Module PyStr.

(** [bool(s)] for an optional [str]. *)
Definition truthy (o : option string) : bool :=
  match o with
  | Some s => negb (String.eqb s "")
  | None => false
  end.

(** [a or b]. *)
Definition or (a b : option string) : option string :=
  if truthy a then a else b.

End PyStr.

(** [item.get("uuid") or item.get("url")]. *)
Definition uid_of (item : feed_item) : option string :=
  PyStr.or (f_uuid item) (f_url item).

Definition normalize (uid : string) (item : feed_item) : news_item :=
  {| id := uid;
     headline := default "News" (PyStr.or (f_title item) (Some "News"));
     url := f_url item;
     tickers := omap (fun t => if PyStr.truthy t then t else None)
                     (f_ticker_sentiment item) |}.

(** The test [if not uid or uid in posted_news_ids: continue], returning the
    identifier of an item that passes. *)
Definition passes (posted : gset string) (item : feed_item) : option string :=
  match uid_of item with
  | Some uid =>
      if PyStr.truthy (Some uid) && negb (bool_decide (uid ∈ posted))
      then Some uid else None
  | None => None
  end.

(** The normalisation loop of [get_news]; [news] is the list being built. *)
Fixpoint get_news_loop (posted : gset string) (feed : list feed_item)
    (news : list news_item) : list news_item :=
  match feed with
  | [] => news
  | item :: rest =>
      match passes posted item with
      | Some uid => get_news_loop posted rest (news ++ [normalize uid item])
      | None => get_news_loop posted rest news
      end
  end.

(** [get_news] from the fetched feed on: [posted] is the current value of the
    global [posted_news_ids], which [get_news] only reads. *)
Definition get_news (posted : gset string) (feed : list feed_item)
  : list news_item :=
  take 10 (get_news_loop posted feed []).

(** The loop of [news_loop] over the returned items: each one is recorded in
    [posted_news_ids] and then sent; [sent] collects the items handed to the
    channel, in order. *)
Fixpoint publish_loop (posted : gset string) (news sent : list news_item)
  : gset string * list news_item :=
  match news with
  | [] => (posted, sent)
  | n :: rest => publish_loop ({[ id n ]} ∪ posted) rest (sent ++ [n])
  end.

(** One run of [news_loop] on a fetched feed: the new value of
    [posted_news_ids] and the items published. *)
Definition news_loop (posted : gset string) (feed : list feed_item)
  : gset string * list news_item :=
  let news := get_news posted feed in
  if Py.is_empty news then (posted, []) else publish_loop posted news [].

(** Successive runs of [news_loop], one per fetched feed, starting from
    [posted]; the published items of each run, in order. *)
Fixpoint news_cycles (posted : gset string) (feeds : list (list feed_item))
  : gset string * list (list news_item) :=
  match feeds with
  | [] => (posted, [])
  | feed :: rest =>
      let '(posted', out) := news_loop posted feed in
      let '(final, outs) := news_cycles posted' rest in
      (final, out :: outs)
  end.

(** ** Options-flow summary *)

(** [x.get("details", {}).get("contract_type") == ty]. *)
Definition contract_type_is (x : json) (ty : string) : res bool :=
  details ← PyJson.get x "details" (JDict []);
  ct ← PyJson.get details "contract_type" JNull;
  Ok (PyJson.eq_str ct ty).

(** [int(x.get("day", {}).get("volume", 0))]. *)
Definition contract_volume `{Builtins} (x : json) : res Z :=
  day ← PyJson.get x "day" (JDict []);
  vol ← PyJson.get day "volume" (JInt 0);
  PyJson.to_int vol.

(** [sum(int(...) for x in results if ... == ty)]: the filter is evaluated
    first, the volume only for a contract that passes it. *)
Fixpoint sum_volume `{Builtins} (ty : string) (results : list json) (acc : Z)
  : res Z :=
  match results with
  | [] => Ok acc
  | x :: rest =>
      b ← contract_type_is x ty;
      if b : bool then v ← contract_volume x; sum_volume ty rest (acc + v)
      else sum_volume ty rest acc
  end.

(** The body of the [try] block of [polygon_options_flow]. *)
Definition options_flow_body `{Builtins} (data : json) : res (option (Z * Z)) :=
  r ← PyJson.get data "results" JNull;
  results ← PyJson.iter (PyJson.or r (JList []));
  calls_vol ← sum_volume "call" results 0;
  puts_vol ← sum_volume "put" results 0;
  if (calls_vol =? 0) && (puts_vol =? 0) then Ok None
  else Ok (Some (calls_vol, puts_vol)).

(** [polygon_options_flow] from the value of [fetch_json] on: [polygon_key] is
    the global [POLYGON_KEY], [data] what [fetch_json] returned. *)
Definition polygon_options_flow `{Builtins} (polygon_key : option string)
    (data : json) : res (option (Z * Z)) :=
  if negb (PyStr.truthy polygon_key) then Ok None
  else if negb (PyJson.truthy data) then Ok None
  else try_except (options_flow_body data) None.

(** ** Composition of the price message *)

(** Truthiness of an [Optional[float]]. *)
Definition opt_float_truthy (o : option float) : bool :=
  match o with
  | Some x => Py.float_truthy x
  | None => false
  end.

(** [ema_txt] of [price_loop], from the two averages. *)
Definition ema_txt_of `{Builtins} (ema9 ema21 : option float) : string :=
  match ema9, ema21 with
  | Some a, Some b =>
      if opt_float_truthy ema9 && opt_float_truthy ema21
      then " • EMA9/21: " +:+ fmt_2f a +:+ "/" +:+ fmt_2f b +:+ " "
           +:+ (if (b <? a)%float then "↑" else "↓")
      else ""
  | _, _ => ""
  end.

(** [vwap_txt] of [price_loop]. *)
Definition vwap_txt_of `{Builtins} (vwap_val : option float) : string :=
  match vwap_val with
  | Some x => if opt_float_truthy vwap_val then " • VWAP: " +:+ fmt_2f x else ""
  | None => ""
  end.

(** [spike_txt] of [price_loop]. *)
Definition spike_txt_of `{Builtins} (spike : option (float * Z)) : string :=
  match spike with
  | Some (ratio, _) => " • Vol spike " +:+ fmt_1f ratio +:+ "×"
  | None => ""
  end.

(** [poly_txt] of [price_loop], from the snapshot when the integration is
    configured. *)
Definition poly_txt_of `{Builtins} (snap : option (Z * Z)) : string :=
  match snap with
  | Some (calls, puts) =>
      " • Opts flow C/P: " +:+ fmt_int calls +:+ "/" +:+ fmt_int puts
  | None => ""
  end.

(** The indicator part of one iteration of [price_loop] on a parsed series:
    the texts [spike_txt], [ema_txt] and [vwap_txt]. *)
Definition indicator_txts `{Builtins} (p : parsed) : res (string * string * string) :=
  let '(closes, hlcs, vols, _) := p in
  ema9 ← ema (Py.last_n 50 closes) 9;
  ema21 ← ema (Py.last_n 50 closes) 21;
  vwap_val ← calc_vwap (Py.last_n 120 hlcs) (Py.last_n 120 vols);
  spike ← volume_spike vols;
  Ok (spike_txt_of spike, ema_txt_of ema9 ema21, vwap_txt_of vwap_val).

(** [change] and [dot] of [price_loop]. *)
Definition change_of (closes : list float) (last_close : float) : float :=
  if (1 <? length closes)%nat
  then (last_close - default 0 (closes !! (length closes - 2)%nat))%float
  else 0%float.

Definition dot_of (change : float) : string :=
  if (0 <=? change)%float then "🟢" else "🔴".

(** The message of one symbol. *)
Definition price_message `{Builtins} (sym : string) (p : parsed)
    (snap : option (Z * Z)) : res string :=
  let '(closes, _, _, last_close) := p in
  let change := change_of closes last_close in
  txts ← indicator_txts p;
  let '(spike_txt, ema_txt, vwap_txt) := txts in
  Ok (dot_of change +:+ " **" +:+ sym +:+ "** " +:+ fmt_2f last_close
      +:+ " (" +:+ fmt_signed_2f change +:+ ")"
      +:+ spike_txt +:+ ema_txt +:+ vwap_txt +:+ poly_txt_of snap).

(** ** One cycle of [price_loop] *)

(** What the fetches for one symbol returned: the value of [get_intraday] and
    the value of [fetch_json] inside [polygon_options_flow], which is only
    requested when the integration is configured. [JNull] is a failed
    fetch. *)
Record symbol_fetch : Type := SymbolFetch {
  pf_sym : string;
  pf_series : json;
  pf_options : json
}.

(** The body of the loop for one symbol: [None] when the symbol is skipped by
    a [continue], the message handed to the channel otherwise. The indicators
    are computed before the options snapshot is requested. *)
Definition price_step `{Builtins} (polygon_key : option string)
    (f : symbol_fetch) : res (option string) :=
  if negb (PyJson.truthy (pf_series f)) then Ok None
  else
    r ← parse_intraday (pf_series f);
    match r with
    | None => Ok None
    | Some p =>
        _ ← indicator_txts p;
        snap ← (if PyStr.truthy polygon_key
                then polygon_options_flow polygon_key (pf_options f)
                else Ok None);
        msg ← price_message (pf_sym f) p snap;
        Ok (Some msg)
    end.

(** The loop over the symbols, in the order of [TICKERS]: the messages handed
    to the channel so far, and the exception that ended the cycle, if one
    did. A failure of [ch.send] is logged and the loop goes on. *)
Fixpoint price_loop `{Builtins} (polygon_key : option string)
    (fetches : list symbol_fetch) (sent : list string)
  : list string * option exn :=
  match fetches with
  | [] => (sent, None)
  | f :: rest =>
      match price_step polygon_key f with
      | Ok None => price_loop polygon_key rest sent
      | Ok (Some msg) => price_loop polygon_key rest (sent ++ [msg])
      | Raise e => (sent, Some e)
      end
  end.

(** * Specification-side definitions *)

(** The recurrence of the specification of the exponential moving average:
    [e_0 = x_0] and [e_i = x_i * k + e_(i-1) * (1 - k)]. *)
Fixpoint ema_rec (k : float) (series : list float) (i : nat) : float :=
  match i with
  | O => default 0%float (series !! O)
  | S j => (default 0 (series !! i) * k + ema_rec k series j * (1 - k))%float
  end.

(** The typical price of a bar. *)
Definition typical (b : hlc) : float :=
  let '(h, l, c) := b in ((h + l + c) / 3)%float.

(** The sum of [typical_i * volume_i], accumulated from [0.0] in the order of
    the bars. *)
Definition weighted_sum (prices : list hlc) (volumes : list Z) : float :=
  foldl PrimFloat.add 0%float
        (zip_with (fun b v => (typical b * Py.to_float v)%float) prices volumes).

(** The items of a feed that are not filtered out against the seen-set
    [posted], normalised, in feed order and before truncation. *)
Definition unseen (posted : gset string) (feed : list feed_item)
  : list news_item :=
  omap (fun item => uid ← passes posted item; Some (normalize uid item)) feed.

(** The identifiers of a list of normalised items. *)
Definition ids (news : list news_item) : list string := id <$> news.

(** How many of the items carry the identifier [uid]. *)
Definition occurrences (uid : string) (news : list news_item) : nat :=
  length (filter (fun n => id n = uid) news).

(** A feed entry that carries only a [url]. *)
Definition url_item (u : string) : feed_item :=
  {| f_uuid := None; f_url := Some u; f_title := Some "headline";
     f_ticker_sentiment := [Some "AAPL"] |}.

(** Eleven entries with distinct urls. *)
Definition eleven_items : list feed_item :=
  url_item <$> ["u01"; "u02"; "u03"; "u04"; "u05"; "u06"; "u07"; "u08"; "u09";
                "u10"; "u11"].

(** Ten entries with other urls, followed by the eleventh entry of
    [eleven_items]. *)
Definition ten_then_eleventh : list feed_item :=
  url_item <$> ["v01"; "v02"; "v03"; "v04"; "v05"; "v06"; "v07"; "v08"; "v09";
                "v10"; "u11"].

(** Ten entries with distinct urls, followed by a second entry that carries
    the url of the first. *)
Definition ten_then_first : list feed_item :=
  url_item <$> ["u01"; "u02"; "u03"; "u04"; "u05"; "u06"; "u07"; "u08"; "u09";
                "u10"; "u01"].


(** ** The parsed series as the specification words it

    Strictly ascending timestamps. *)
Definition key_lt (a b : string * json) : Prop := String.ltb a.1 b.1 = true.

(** Ascending timestamps, equal ones allowed: the second is not smaller than
    the first. *)
Definition key_le (a b : string * json) : Prop := String.ltb b.1 a.1 = false.

(** The conversion of every bar, in order. *)
Fixpoint convert_all `{Builtins} (bars : list json)
  : res (list (float * float * float * Z)) :=
  match bars with
  | [] => Ok []
  | v :: rest => f ← bar_fields v; fs ← convert_all rest; Ok (f :: fs)
  end.

(** The close, the (high, low, close) triple and the volume of a converted
    bar, which [bar_fields] gives as (close, high, low, volume). *)
Definition close_of (f : float * float * float * Z) : float := f.1.1.1.

Definition hlc_of (f : float * float * float * Z) : hlc :=
  (f.1.1.2, f.1.2, f.1.1.1).

Definition vol_of (f : float * float * float * Z) : Z := f.2.


(** The four fields that [parse_intraday] reads from a bar. *)
Definition bar_keys : list string :=
  ["4. close"; "2. high"; "3. low"; "5. volume"].

(** A bar with a missing or non-numeric field: it is not a [dict], or one of
    the four fields is absent, or [float] rejects its value. *)
Definition malformed_bar `{Builtins} (v : json) : Prop :=
  ∃ key, key ∈ bar_keys ∧
    match v with
    | JDict d =>
        match PyJson.lookup key d with
        | None => True
        | Some x => ∃ e, PyJson.to_float x = Raise e
        end
    | _ => True
    end.

(** The key of the time series in the payload. *)
Definition series_key : string := "Time Series (1min)".

(** ** The options summary as the specification words it

    The declared type of a contract, when the record has one. *)
Definition declared_type (x : json) : option string :=
  match x with
  | JDict d =>
      match PyJson.lookup "details" d with
      | Some (JDict det) =>
          match PyJson.lookup "contract_type" det with
          | Some (JStr s) => Some s
          | _ => None
          end
      | _ => None
      end
  | _ => None
  end.

(** The day volume of a contract; a missing or malformed volume counts as
    zero. *)
Definition day_volume `{Builtins} (x : json) : Z :=
  match x with
  | JDict d =>
      match PyJson.lookup "day" d with
      | Some (JDict day) =>
          match PyJson.lookup "volume" day with
          | Some v =>
              match PyJson.to_int v with
              | Ok n => n
              | Raise _ => 0
              end
          | None => 0
          end
      | _ => 0
      end
  | _ => 0
  end.

(** The total day volume of the contracts declared of type [ty]. *)
Fixpoint total_volume `{Builtins} (ty : string) (results : list json) : Z :=
  match results with
  | [] => 0
  | x :: rest =>
      (if bool_decide (declared_type x = Some ty) then day_volume x else 0)
      + total_volume ty rest
  end.

(** The summary of the specification: absent when both totals are zero. *)
Definition summary `{Builtins} (results : list json) : option (Z * Z) :=
  let calls := total_volume "call" results in
  let puts := total_volume "put" results in
  if (calls =? 0) && (puts =? 0) then None else Some (calls, puts).

(** The records that the summarizer tolerates: a [dict] whose [details] are
    absent or a [dict]; and, when it is declared a call or a put, whose [day]
    is absent or a [dict] with the volume absent or accepted by [int]. *)
Definition tolerated `{Builtins} (x : json) : bool :=
  match x with
  | JDict d =>
      match PyJson.lookup "details" d with
      | None => true
      | Some (JDict det) =>
          let ct := default JNull (PyJson.lookup "contract_type" det) in
          if PyJson.eq_str ct "call" || PyJson.eq_str ct "put" then
            match PyJson.lookup "day" d with
            | None => true
            | Some (JDict day) =>
                match PyJson.lookup "volume" day with
                | None => true
                | Some v =>
                    match PyJson.to_int v with
                    | Ok _ => true
                    | Raise _ => false
                    end
                end
            | Some _ => false
            end
          else true
      | Some _ => false
      end
  | _ => false
  end.

(** A contract record of type [ty] with day volume [v]. *)
Definition contract (ty : string) (v : json) : json :=
  JDict [("details", JDict [("contract_type", JStr ty)]);
         ("day", JDict [("volume", v)])].

(** A contract record of type [ty] with no volume. *)
Definition contract_no_volume (ty : string) : json :=
  JDict [("details", JDict [("contract_type", JStr ty)]); ("day", JDict [])].

(** A snapshot payload with the given contract records. *)
Definition snapshot (results : list json) : json :=
  JDict [("status", JStr "OK"); ("results", JList results)].

(** What one record adds to the total of type [ty], as [sum_volume]
    evaluates it. *)
Definition contribution `{Builtins} (ty : string) (x : json) : res Z :=
  b ← contract_type_is x ty;
  if b : bool then contract_volume x else Ok 0.

(** ** A sample instance of the builtins

    Used to evaluate the model on sample inputs. It reads plain decimal
    numerals (an optional sign, digits, an optional fractional part) and
    renders a [float] in fixed-point notation, rounding half to even on the
    exact binary value. *)

Module Sample.

Definition digit_of (c : Ascii.ascii) : option Z :=
  let n := Z.of_N (Ascii.N_of_ascii c) in
  if (48 <=? n) && (n <=? 57) then Some (n - 48) else None.

Fixpoint digits_go (s : string) (acc : Z) : option Z :=
  match s with
  | EmptyString => Some acc
  | String c s' => d ← digit_of c; digits_go s' (10 * acc + d)
  end.

Definition digits (s : string) : option Z :=
  match s with
  | EmptyString => None
  | _ => digits_go s 0
  end.

Definition signed {A} (f : string → option A) (neg : A → A) (s : string)
  : option A :=
  match s with
  | String "-"%char s' => neg <$> f s'
  | String "+"%char s' => f s'
  | _ => f s
  end.

Fixpoint split_dot (s : string) : string * option string :=
  match s with
  | EmptyString => (EmptyString, None)
  | String "."%char s' => (EmptyString, Some s')
  | String c s' => let '(a, b) := split_dot s' in (String c a, b)
  end.

Definition unsigned_float (s : string) : option float :=
  let '(ip, fp) := split_dot s in
  let f := default EmptyString fp in
  n ← digits (ip +:+ f);
  Some (SF2Prim (SFdiv prec emax (Py.sf_of_int n)
                       (Py.sf_of_int (10 ^ Z.of_nat (String.length f))))).

Definition round_half_even (num den : Z) : Z :=
  let q := num / den in
  let r := num mod den in
  if 2 * r <? den then q
  else if den <? 2 * r then q + 1
  else if Z.even q then q else q + 1.

Fixpoint zeros (n : nat) : string :=
  match n with
  | O => EmptyString
  | S n' => String "0"%char (zeros n')
  end.

Definition render (d : nat) (n : Z) : string :=
  let unit := 10 ^ Z.of_nat d in
  let frac := pretty (n mod unit) in
  pretty (n / unit) +:+ "." +:+ zeros (d - String.length frac) +:+ frac.

Definition fixed (plus : string) (d : nat) (x : float) : string :=
  match Prim2SF x with
  | S754_nan => plus +:+ "nan"
  | S754_infinity s => (if s then "-" else plus) +:+ "inf"
  | S754_zero s => (if s then "-" else plus) +:+ render d 0
  | S754_finite s m e =>
      let scaled :=
        if 0 <=? e then Zpos m * 10 ^ Z.of_nat d * 2 ^ e
        else round_half_even (Zpos m * 10 ^ Z.of_nat d) (2 ^ (- e)) in
      (if s then "-" else plus) +:+ render d scaled
  end.

Definition builtins : Builtins :=
  {| float_of_str := signed unsigned_float PrimFloat.opp;
     int_of_str := signed digits Z.opp;
     fmt_1f := fixed "" 1;
     fmt_2f := fixed "" 2;
     fmt_signed_2f := fixed "+" 2;
     fmt_int := pretty |}.

End Sample.

(** ** Sample inputs *)

(** A bar as the provider sends it: every field a decimal numeral in a
    string. *)
Definition bar (high low close volume : string) : json :=
  JDict [("1. open", JStr close); ("2. high", JStr high); ("3. low", JStr low);
         ("4. close", JStr close); ("5. volume", JStr volume)].

(** A time series of three bars, listed newest first. *)
Definition three_bars : list (string * json) :=
  [("2024-01-02 15:59:00", bar "12.00" "10.00" "11.00" "300");
   ("2024-01-02 15:57:00", bar "10.00" "8.00" "9.00" "100");
   ("2024-01-02 15:58:00", bar "11.50" "9.50" "10.25" "200")].

Definition payload (entries : list (string * json)) : list (string * json) :=
  [("Meta Data", JDict [("2. Symbol", JStr "AAPL")]);
   ("Time Series (1min)", JDict entries)].

(** A bar without its volume. *)
Definition bar_without_volume : json :=
  JDict [("2. high", JStr "12.00"); ("3. low", JStr "10.00");
         ("4. close", JStr "11.00")].

(** A parsed series of 21 bars whose prices are all [0.0]. *)
Definition flat_zero : parsed :=
  (replicate 21 0%float, replicate 21 (0, 0, 0)%float, replicate 21 1, 0%float).

(** A bar whose volume is the JSON number 1.5e308. *)
Definition huge_bar : json :=
  JDict [("2. high", JFloat 1); ("3. low", JFloat 1); ("4. close", JFloat 1);
         ("5. volume", JFloat 1.5e308)].

(** The fetches of a cycle over three symbols: the first payload parses, the
    second fetch failed, the third payload has two bars with huge volumes. *)
Definition fetch_ok (sym : string) : symbol_fetch :=
  SymbolFetch sym (JDict (payload three_bars)) JNull.

Definition fetch_failed (sym : string) : symbol_fetch :=
  SymbolFetch sym JNull JNull.

Definition fetch_huge (sym : string) : symbol_fetch :=
  SymbolFetch sym
    (JDict (payload [("2024-01-02 15:58:00", huge_bar);
                     ("2024-01-02 15:59:00", huge_bar)])) JNull.

(** * Properties *)

(** ** Python arithmetic *)

Lemma float_of_int_in_range (n : Z) :
  Py.in_float_range n → Py.float_of_int n = Ok (Py.to_float n).
Proof.
  unfold Py.float_of_int, Py.in_float_rangeb, Py.in_float_range.
  intros Hn. apply Z.ltb_lt in Hn. by rewrite Hn.
Qed.

Lemma float_of_int_overflow (n : Z) :
  ¬ Py.in_float_range n → Py.float_of_int n = Raise OverflowError.
Proof.
  unfold Py.float_of_int, Py.in_float_rangeb, Py.in_float_range.
  intros Hn. apply Z.ltb_nlt in Hn. by rewrite Hn.
Qed.

Lemma float_limit_pos : 4 < Py.float_limit.
Proof. by vm_compute. Qed.

(** The smoothing constant [2 / (period + 1)] exists for every period but
    [-1]. *)
Lemma smoothing_constant_defined (period : Z) :
  period ≠ -1 →
  Py.int_truediv 2 (period + 1)
  = Ok (SF2Prim (SFdiv prec emax (Py.sf_of_int 2) (Py.sf_of_int (period + 1)))).
Proof.
  intros Hp. unfold Py.int_truediv.
  destruct (Z.eqb_spec (period + 1) 0) as [?|Hne]; [lia|].
  pose proof float_limit_pos.
  replace (Z.abs 2 <? Py.float_limit * Z.abs (period + 1)) with true; [done|].
  symmetry. apply Z.ltb_lt. change (Z.abs 2) with 2. nia.
Qed.


(** The loop invariant: after the elements of [pre] the accumulator holds the
    recurrence at the last index of [pre]. *)
Lemma ema_loop_rec (k : float) (rest pre : list float) :
  pre ≠ [] →
  ema_loop k (ema_rec k (pre ++ rest) (length pre - 1)) rest
  = ema_rec k (pre ++ rest) (length (pre ++ rest) - 1).
Proof.
  revert pre. induction rest as [|x rest IH]; intros pre Hpre.
  - by rewrite app_nil_r.
  - specialize (IH (pre ++ [x])). rewrite <- !app_assoc in IH. simpl in IH.
    rewrite <- IH by (by destruct pre). simpl. f_equal.
    rewrite length_app. simpl.
    replace (length pre + 1 - 1)%nat with (S (length pre - 1))
      by (destruct pre; [done|simpl; lia]).
    simpl. replace (S (length pre - 1)) with (length pre + 0)%nat
      by (destruct pre; [done|simpl; lia]).
    rewrite lookup_app_r by lia.
    replace (length pre + 0 - length pre)%nat with O by lia. done.
Qed.

Lemma ema_value (series : list float) (period : Z) (k : float) :
  series ≠ [] →
  ¬ Z.of_nat (length series) < period →
  Py.int_truediv 2 (period + 1) = Ok k →
  ema series period = Ok (Some (ema_rec k series (length series - 1))).
Proof.
  intros Hne Hlen Hk. unfold ema.
  destruct (Z.ltb_spec (Z.of_nat (length series)) period) as [?|_]; [lia|].
  rewrite Hk. destruct series as [|x0 rest]; [done|]. simpl.
  rewrite drop_0. f_equal. f_equal.
  pose proof (ema_loop_rec k rest [x0]) as H. simpl in H.
  rewrite H by done. by rewrite Nat.sub_0_r.
Qed.

(** C1, as amended. For every series and every period other than [-1], with
    the series non-empty or the period positive: [ema] returns [None] exactly
    when the series is shorter than the period, and otherwise returns the
    last value of the recurrence [e_0 = x_0], [e_i = x_i*k + e_(i-1)*(1-k)]
    with [k = 2/(period+1)]. For the series 10, 20, 30 and period 2 the result
    is within 1e-9 of [30*(2/3) + (20*(2/3) + 10*(1/3))*(1/3)]. *)
Theorem ema_spec (series : list float) (period : Z) :
  period ≠ -1 →
  series ≠ [] ∨ 0 < period →
  (ema series period = Ok None ↔ Z.of_nat (length series) < period)
  ∧ (period ≤ Z.of_nat (length series) →
     ∃ k, Py.int_truediv 2 (period + 1) = Ok k
          ∧ ema series period
            = Ok (Some (ema_rec k series (length series - 1))))
  ∧ (∃ r, ema [10; 20; 30]%float 2 = Ok (Some r)
          ∧ (abs (r - (30 * (2 / 3) + (20 * (2 / 3) + 10 * (1 / 3)) * (1 / 3)))
             <? 1e-9)%float = true).
Proof.
  intros Hp Hdom.
  assert (Hval : period ≤ Z.of_nat (length series) →
     ∃ k, Py.int_truediv 2 (period + 1) = Ok k
          ∧ ema series period
            = Ok (Some (ema_rec k series (length series - 1)))).
  { intros Hlen. eexists. split; [by apply smoothing_constant_defined|].
    apply ema_value; [|lia|by apply smoothing_constant_defined].
    destruct Hdom as [?|?]; [done|]. intros ->. simpl in Hlen. lia. }
  split; [|split; [exact Hval|]].
  - split.
    + intros Hnone.
      destruct (Z.lt_ge_cases (Z.of_nat (length series)) period) as [?|Hge];
        [done|].
      destruct (Hval Hge) as (k & _ & Hk). congruence.
    + intros Hlt. unfold ema. apply Z.ltb_lt in Hlt. by rewrite Hlt.
  - eexists. split; [by vm_compute|]. by vm_compute.
Qed.

(** The theorem at the series 10, 20, 30 and period 2. *)
Lemma ema_spec_witness :
  (ema [10; 20; 30]%float 2 = Ok None ↔ Z.of_nat 3 < 2)
  ∧ (2 ≤ Z.of_nat 3 →
     ∃ k, Py.int_truediv 2 (2 + 1) = Ok k
          ∧ ema [10; 20; 30]%float 2
            = Ok (Some (ema_rec k [10; 20; 30]%float 2))).
Proof.
  destruct (ema_spec [10; 20; 30]%float 2) as (H1 & H2 & _);
    [discriminate | right; reflexivity | exact (conj H1 H2)].
Defined.

(** C1, as stated, fails: with an empty series and period 0 the length test
    passes and the seed [series[0]] raises [IndexError]; with period [-1] the
    smoothing constant divides by zero. *)
Lemma ema_raises :
  ema [] 0 = Raise IndexError ∧ ema [1%float] (-1) = Raise ZeroDivisionError.
Proof. split; reflexivity. Qed.

(** Outside the domain of the amended statement [ema] raises: the smoothing
    constant divides by zero for period [-1], and an empty series has no seed
    when the period is not positive. *)
Lemma ema_outside_domain (series : list float) (period : Z) :
  (period = -1 → ema series period = Raise ZeroDivisionError)
  ∧ (series = [] → period ≤ 0 → period ≠ -1 →
     ema series period = Raise IndexError).
Proof.
  split.
  - intros ->. unfold ema.
    destruct (Z.ltb_spec (Z.of_nat (length series)) (-1)) as [?|_]; [lia|done].
  - intros -> Hle Hne. unfold ema. simpl. change (Z.of_nat 0) with 0.
    destruct (Z.ltb_spec 0 period) as [?|_]; [lia|].
    by rewrite smoothing_constant_defined by done.
Qed.

(** ** Volume-weighted average price *)

Lemma sum_from (l : list Z) (a : Z) : foldl Z.add a l = a + Py.sum l.
Proof.
  unfold Py.sum. revert a. induction l as [|x l IH]; intros a; simpl.
  - lia.
  - rewrite IH, (IH (0 + x)). lia.
Qed.

Lemma sum_cons (x : Z) (l : list Z) : Py.sum (x :: l) = x + Py.sum l.
Proof. unfold Py.sum at 1. simpl. by rewrite sum_from. Qed.


(** The loop never raises on volumes within the range of [float], and its
    accumulators hold the two sums. *)
Lemma vwap_loop_sums (prices : list hlc) (volumes : list Z) (pv : float) (cv : Z) :
  Forall Py.in_float_range (take (length prices) volumes) →
  vwap_loop pv cv (zip prices volumes)
  = Ok (foldl PrimFloat.add pv
          (zip_with (fun b v => (typical b * Py.to_float v)%float)
                    prices volumes),
        cv + Py.sum (take (length prices) volumes)).
Proof.
  revert volumes pv cv.
  induction prices as [|[[h l] c] prices IH]; intros volumes pv cv Hr; simpl.
  - f_equal. f_equal. unfold Py.sum. simpl. lia.
  - destruct volumes as [|v volumes]; simpl.
    + f_equal. f_equal. unfold Py.sum. simpl. lia.
    + simpl in Hr. apply Forall_cons in Hr as [Hv Hr].
      unfold Py.float_div, Py.float_mul_int.
      replace (3 =? 0)%float with false by reflexivity. simpl.
      rewrite (float_of_int_in_range v Hv). simpl.
      rewrite IH by done. rewrite sum_cons. f_equal. f_equal. lia.
Qed.

(** C5, as amended. [calc_vwap] returns [None] when either list is empty or
    the lengths differ. On aligned non-empty lists whose volumes are within
    the range of [float], it returns [None] when the cumulative volume is
    zero, and otherwise, the cumulative volume being within the range of
    [float] too, the sum of [typical_i * volume_i] divided by the sum of the
    volumes, with [typical_i = (high_i + low_i + close_i)/3]. The bars
    (10,8,9), (12,10,11) with volumes 100, 300 give 10.5. *)
Theorem calc_vwap_spec (prices : list hlc) (volumes : list Z) :
  (prices = [] ∨ volumes = [] ∨ length prices ≠ length volumes →
   calc_vwap prices volumes = Ok None)
  ∧ (prices ≠ [] → length prices = length volumes →
     Forall Py.in_float_range volumes →
     (Py.sum volumes = 0 → calc_vwap prices volumes = Ok None)
     ∧ (Py.sum volumes ≠ 0 → Py.in_float_range (Py.sum volumes) →
        calc_vwap prices volumes
        = Ok (Some (weighted_sum prices volumes
                    / Py.to_float (Py.sum volumes))%float)))
  ∧ calc_vwap [(10, 8, 9); (12, 10, 11)]%float [100; 300] = Ok (Some 10.5%float).
Proof.
  split; [|split].
  - unfold calc_vwap. intros [->|[->|Hlen]]; [done|by rewrite orb_true_r|].
    apply Nat.eqb_neq in Hlen. rewrite Hlen. simpl. by rewrite !orb_true_r.
  - intros Hne Hlen Hr.
    assert (Hloop : calc_vwap prices volumes
      = if Py.sum volumes =? 0 then Ok None
        else r ← Py.float_div_int (weighted_sum prices volumes) (Py.sum volumes);
             Ok (Some r)).
    { unfold calc_vwap.
      destruct prices as [|p prices]; [done|].
      destruct volumes as [|v volumes]; [done|].
      replace (length (p :: prices) =? length (v :: volumes))%nat with true
        by (symmetry; by apply Nat.eqb_eq).
      cbn [Py.is_empty orb negb].
      rewrite vwap_loop_sums by (by rewrite Hlen, firstn_all).
      rewrite Hlen, firstn_all. cbn [mbind res_bind]. done. }
    rewrite Hloop. split.
    + intros ->. done.
    + intros Hnz Hin. apply Z.eqb_neq in Hnz as Hnz'. rewrite Hnz'.
      unfold Py.float_div_int. rewrite (float_of_int_in_range _ Hin).
      cbn [mbind res_bind]. by rewrite Hnz'.
  - by vm_compute.
Qed.

(** The theorem at the bars (10,8,9), (12,10,11) with volumes 100, 300. *)
Lemma calc_vwap_spec_witness :
  calc_vwap [(10, 8, 9); (12, 10, 11)]%float [100; 300]
  = Ok (Some (weighted_sum [(10, 8, 9); (12, 10, 11)] [100; 300]%Z
              / Py.to_float (Py.sum [100; 300]%Z))%float).
Proof.
  destruct (calc_vwap_spec [(10, 8, 9); (12, 10, 11)]%float [100; 300])
    as (_ & H & _).
  destruct H as [_ H]; [discriminate | reflexivity | |].
  - repeat constructor.
  - apply H; [discriminate | reflexivity].
Defined.

(** C5, as stated, fails on a volume too large for a [float]: the product
    [typical * v] raises [OverflowError], also when the cumulative volume is
    zero. *)
Lemma calc_vwap_raises :
  calc_vwap [(1, 1, 1)]%float [2 ^ 1024] = Raise OverflowError
  ∧ Py.sum [2 ^ 1024; - 2 ^ 1024] = 0
  ∧ calc_vwap [(1, 1, 1); (1, 1, 1)]%float [2 ^ 1024; - 2 ^ 1024]
    = Raise OverflowError.
Proof. repeat split; by vm_compute. Qed.

(** ** Volume spike *)

(** A [float] that is not [<= 0] is not [== 0]. *)
Lemma float_not_le_zero_not_zero (x : float) :
  (x <=? 0)%float = false → (x =? 0)%float = false.
Proof.
  rewrite leb_spec, eqb_spec. unfold SFleb, SFeqb.
  by destruct (SFcompare (Prim2SF x) (Prim2SF 0)) as [[]|].
Qed.

(** [vols[-25:-5]] is the window of 20 samples that ends 5 positions before
    the most recent one. *)
Lemma slice_window (older window recent : list Z) (current : Z) :
  length window = 20%nat → length recent = 4%nat →
  Py.slice_neg 25 5 (older ++ window ++ recent ++ [current]) = window.
Proof.
  intros Hw Hr. unfold Py.slice_neg. rewrite !length_app, Hw, Hr. simpl.
  replace (length older + 25 - 5 - (length older + 25 - 25))%nat
    with (length window + 0)%nat by lia.
  replace (length older + 25 - 25)%nat with (length older + 0)%nat by lia.
  rewrite drop_app_add, drop_0.
  by rewrite take_app_add, take_0, app_nil_r.
Qed.

Lemma index_last_snoc {A} (l : list A) (x : A) : Py.index_last (l ++ [x]) = Ok x.
Proof. unfold Py.index_last. by rewrite last_snoc. Qed.

(** Every list of at least 25 samples splits into older samples, the window,
    four recent samples and the current one. *)
Lemma split_window (vols : list Z) :
  (25 ≤ length vols)%nat →
  ∃ older window recent current,
    vols = older ++ window ++ recent ++ [current]
    ∧ length window = 20%nat ∧ length recent = 4%nat.
Proof.
  intros Hlen.
  induction vols as [|current l _] using rev_ind.
  { simpl in Hlen. lia. }
  rewrite length_app in Hlen. simpl in Hlen.
  exists (take (length l - 24) l), (take 20 (drop (length l - 24) l)),
         (drop 20 (drop (length l - 24) l)), current.
  split; [|split].
  - rewrite (app_assoc _ _ [current]), take_drop.
    by rewrite (app_assoc _ _ [current]), take_drop.
  - rewrite length_take, length_drop. lia.
  - rewrite !length_drop. lia.
Qed.

Lemma volume_spike_unfold (older window recent : list Z) (current : Z) :
  length window = 20%nat → length recent = 4%nat →
  volume_spike (older ++ window ++ recent ++ [current])
  = baseline ← Py.int_div_float (Py.sum window) 20%float;
    if (baseline <=? 0)%float then Ok None
    else
      ratio ← Py.int_div_float current baseline;
      if (2 <=? ratio)%float then Ok (Some (ratio, current)) else Ok None.
Proof.
  intros Hw Hr. unfold volume_spike.
  replace (length (older ++ window ++ recent ++ [current]) <? 25)%nat
    with false.
  2:{ symmetry. apply Nat.ltb_ge. rewrite !length_app, Hw, Hr. simpl. lia. }
  rewrite slice_window by done.
  rewrite !app_assoc, index_last_snoc.
  by destruct (Py.int_div_float (Py.sum window) 20).
Qed.

(** C2, as amended. [volume_spike] returns [None] on fewer than 25 samples.
    On [older ++ window ++ recent ++ [current]], with 20 samples in [window]
    and 4 in [recent], and the sum of [window] within the range of [float]:
    with [baseline] the mean of [window], it returns [None] when
    [baseline <= 0]; otherwise, [current] being within the range of [float]
    and [ratio = current / baseline], it returns [(ratio, current)] exactly
    when [ratio >= 2.0] and [None] otherwise. With a window that sums to 200
    (mean 10), a current volume of 200 fires with ratio 20.0 and a current
    volume of 15 does not fire. *)
Theorem volume_spike_spec (vols : list Z) :
  ((length vols < 25)%nat → volume_spike vols = Ok None)
  ∧ (∀ older window recent current,
       vols = older ++ window ++ recent ++ [current] →
       length window = 20%nat → length recent = 4%nat →
       Py.in_float_range (Py.sum window) →
       let baseline := (Py.to_float (Py.sum window) / 20)%float in
       ((baseline <=? 0)%float = true → volume_spike vols = Ok None)
       ∧ ((baseline <=? 0)%float = false → Py.in_float_range current →
          let ratio := (Py.to_float current / baseline)%float in
          volume_spike vols
          = Ok (if (2 <=? ratio)%float then Some (ratio, current) else None)))
  ∧ (∀ window recent,
       length window = 20%nat → Py.sum window = 200 → length recent = 4%nat →
       volume_spike (window ++ recent ++ [200]) = Ok (Some (20%float, 200))
       ∧ volume_spike (window ++ recent ++ [15]) = Ok None).
Proof.
  split; [|split].
  - intros Hlen. unfold volume_spike. apply Nat.ltb_lt in Hlen.
    by rewrite Hlen.
  - intros older window recent current -> Hw Hr Hsum baseline.
    rewrite volume_spike_unfold by done.
    assert (Hbase : Py.int_div_float (Py.sum window) 20 = Ok baseline).
    { unfold Py.int_div_float. rewrite (float_of_int_in_range _ Hsum).
      reflexivity. }
    rewrite Hbase. cbn [mbind res_bind]. split.
    + by intros ->.
    + intros Hb Hcur. rewrite Hb.
      set (ratio := (Py.to_float current / baseline)%float).
      assert (Hratio : Py.int_div_float current baseline = Ok ratio).
      { unfold Py.int_div_float. rewrite (float_of_int_in_range _ Hcur).
        cbn [mbind res_bind]. unfold Py.float_div.
        by rewrite (float_not_le_zero_not_zero _ Hb). }
      rewrite Hratio. cbn [mbind res_bind].
      by destruct (2 <=? ratio)%float.
  - intros window recent Hw Hsum Hr.
    rewrite <- (app_nil_l (window ++ recent ++ [200])).
    rewrite <- (app_nil_l (window ++ recent ++ [15])).
    rewrite !volume_spike_unfold by done. rewrite Hsum.
    split; by vm_compute.
Qed.

(** The theorem at twenty samples of 10 followed by 10, 10, 10, 10, 200. *)
Lemma volume_spike_spec_witness :
  volume_spike (replicate 20 10 ++ [10; 10; 10; 10] ++ [200])
  = Ok (Some (20%float, 200)).
Proof.
  destruct (volume_spike_spec (replicate 20 10 ++ [10; 10; 10; 10] ++ [200]))
    as (_ & H & _).
  destruct (H [] (replicate 20 10) [10; 10; 10; 10] 200) as [_ H'];
    [reflexivity | reflexivity | reflexivity | by vm_compute |].
  rewrite H'; [reflexivity | reflexivity | by vm_compute].
Defined.

(** C2, as stated, fails on samples too large for a [float]: the conversion
    of the current volume, or of the sum of the window, raises
    [OverflowError]. *)
Lemma volume_spike_raises :
  volume_spike (replicate 24 1 ++ [2 ^ 1024]) = Raise OverflowError
  ∧ volume_spike (replicate 20 (2 ^ 1023) ++ [1; 1; 1; 1; 1])
    = Raise OverflowError.
Proof. split; by vm_compute. Qed.

(** ** News de-duplication *)

Lemma get_news_loop_unseen (posted : gset string) (feed : list feed_item)
    (news : list news_item) :
  get_news_loop posted feed news = news ++ unseen posted feed.
Proof.
  revert news. induction feed as [|item feed IH]; intros news; simpl.
  - by rewrite app_nil_r.
  - unfold unseen. simpl. destruct (passes posted item) as [uid|]; simpl.
    + rewrite IH, <- app_assoc. done.
    + apply IH.
Qed.

Lemma get_news_unseen (posted : gset string) (feed : list feed_item) :
  get_news posted feed = take 10 (unseen posted feed).
Proof. unfold get_news. by rewrite get_news_loop_unseen. Qed.

Lemma publish_loop_spec (posted : gset string) (news sent : list news_item) :
  publish_loop posted news sent
  = (list_to_set (ids news) ∪ posted, sent ++ news).
Proof.
  revert posted sent. induction news as [|n news IH]; intros posted sent; simpl.
  - f_equal; [set_solver | by rewrite app_nil_r].
  - rewrite IH. f_equal; [set_solver | by rewrite <- app_assoc].
Qed.

(** One run of [news_loop] publishes what [get_news] returned and records
    exactly the identifiers of the published items. *)
Lemma news_loop_spec (posted : gset string) (feed : list feed_item) :
  news_loop posted feed
  = (list_to_set (ids (get_news posted feed)) ∪ posted, get_news posted feed).
Proof.
  unfold news_loop. destruct (get_news posted feed) as [|n news] eqn:E.
  - simpl. f_equal. set_solver.
  - cbn [Py.is_empty]. by rewrite publish_loop_spec.
Qed.

Lemma passes_Some (posted : gset string) (item : feed_item) (uid : string) :
  passes posted item = Some uid
  ↔ uid_of item = Some uid ∧ uid ≠ "" ∧ uid ∉ posted.
Proof.
  unfold passes. destruct (uid_of item) as [u|]; [|naive_solver].
  simpl. destruct (String.eqb_spec u "") as [->|Hne]; simpl.
  - naive_solver.
  - case_bool_decide; simpl; naive_solver.
Qed.

Lemma elem_of_unseen (posted : gset string) (feed : list feed_item)
    (n : news_item) :
  n ∈ unseen posted feed
  ↔ ∃ item, item ∈ feed ∧ passes posted item = Some (id n)
            ∧ n = normalize (id n) item.
Proof.
  unfold unseen. rewrite list_elem_of_omap. split.
  - intros (item & Hin & Hn). exists item. split; [done|].
    destruct (passes posted item) as [uid|]; simpl in Hn; [|done].
    by simplify_eq.
  - intros (item & Hin & Hp & Hn). exists item. split; [done|].
    rewrite Hp. simpl. by rewrite <- Hn.
Qed.

(** Nothing that [get_news] returns carries an identifier already seen. *)
Lemma get_news_fresh (posted : gset string) (feed : list feed_item)
    (n : news_item) :
  n ∈ get_news posted feed → (id n ∉ posted) ∧ (id n ≠ "").
Proof.
  rewrite get_news_unseen. intros Hin%subseteq_take.
  apply elem_of_unseen in Hin as (item & _ & Hp & _).
  apply passes_Some in Hp. naive_solver.
Qed.

Lemma unseen_cons_passes (posted : gset string) (item : feed_item)
    (feed : list feed_item) (uid : string) :
  passes posted item = Some uid →
  unseen posted (item :: feed) = normalize uid item :: unseen posted feed.
Proof. intros Hp. unfold unseen. simpl. by rewrite Hp. Qed.

(** C3, as amended. [get_news] returns at most 10 items, the first 10 of the
    unseen ones; [news_loop] publishes them and adds exactly their identifiers
    to the seen-set. An unseen item beyond the truncation point, whose
    identifier is not that of a returned item, is therefore not in the
    seen-set afterwards: its feed entry still passes the filter and is
    returned by a later cycle that feeds it first. *)
Theorem get_news_cap (posted : gset string) (feed : list feed_item) :
  let out := get_news posted feed in
  let posted' := fst (news_loop posted feed) in
  (length out ≤ 10)%nat
  ∧ out = take 10 (unseen posted feed)
  ∧ snd (news_loop posted feed) = out
  ∧ posted' = list_to_set (ids out) ∪ posted
  ∧ ∀ n, n ∈ drop 10 (unseen posted feed) → id n ∉ ids out →
      (id n ∉ posted')
      ∧ ∃ item, item ∈ feed ∧ n = normalize (id n) item
          ∧ passes posted' item = Some (id n)
          ∧ ∀ feed', ∃ rest, get_news posted' (item :: feed') = n :: rest.
Proof.
  intros out posted'. subst out posted'. rewrite news_loop_spec. simpl.
  split; [|split; [|split; [|split]]].
  - rewrite get_news_unseen, length_take. lia.
  - apply get_news_unseen.
  - done.
  - done.
  - intros n Hn Hid. apply subseteq_drop in Hn.
    apply elem_of_unseen in Hn as (item & Hin & Hp & Hnorm).
    apply passes_Some in Hp as (Huid & Hne & Hposted).
    assert (Hfresh : id n ∉ list_to_set (ids (get_news posted feed)) ∪ posted).
    { rewrite not_elem_of_union, elem_of_list_to_set. done. }
    split; [done|]. exists item.
    assert (Hp' : passes (list_to_set (ids (get_news posted feed)) ∪ posted) item
                  = Some (id n)) by (by apply passes_Some).
    split; [done|]. split; [done|]. split; [done|].
    intros feed'. eexists. rewrite get_news_unseen.
    rewrite (unseen_cons_passes _ _ _ _ Hp'), <- Hnorm. simpl. done.
Qed.

(** The theorem at eleven entries with distinct urls and an empty seen-set:
    the eleventh is not marked, and a following cycle returns it. *)
Lemma get_news_cap_witness :
  length (get_news ∅ eleven_items) = 10%nat
  ∧ ("u11" ∉ fst (news_loop ∅ eleven_items))
  ∧ ∃ rest, get_news (fst (news_loop ∅ eleven_items)) [url_item "u11"]
            = normalize "u11" (url_item "u11") :: rest.
Proof.
  destruct (get_news_cap ∅ eleven_items) as (_ & _ & _ & _ & H).
  destruct (H (normalize "u11" (url_item "u11"))) as (Hn & item & Hin & Heq & _ & Hret).
  { vm_compute. left. }
  { apply (bool_decide_unpack _). by vm_compute. }
  split; [reflexivity|]. split; [exact Hn|].
  assert (item = url_item "u11") as ->.
  { revert Hin Heq. unfold eleven_items. rewrite list_elem_of_fmap.
    intros (u & -> & _) Heq. simpl in Heq. injection Heq as Heq.
    by rewrite <- Heq. }
  apply (Hret []).
Defined.

(** C8 fails on the code: two entries of one batch with the same identifier
    are both returned by [get_news], whose filter reads a seen-set that
    [news_loop] only updates afterwards, and both are published. *)
Theorem duplicate_in_batch_published_twice :
  get_news ∅ [url_item "u01"; url_item "u01"]
  = [normalize "u01" (url_item "u01"); normalize "u01" (url_item "u01")]
  ∧ occurrences "u01"
      (concat (snd (news_cycles ∅ [[url_item "u01"; url_item "u01"]]))) = 2%nat.
Proof. split; by vm_compute. Qed.


(** Over any number of cycles: nothing published carries an identifier that
    was in the seen-set at the start, and when no single output repeats an
    identifier, no identifier is published twice at all. *)
Lemma news_cycles_fresh (feeds : list (list feed_item)) (posted : gset string)
    (n : news_item) :
  n ∈ concat (news_cycles posted feeds).2 → id n ∉ posted.
Proof.
  revert posted. induction feeds as [|feed rest IH]; intros posted; simpl.
  - by intros ?%elem_of_nil.
  - rewrite news_loop_spec.
    destruct (news_cycles _ rest) as [final outs] eqn:E. simpl.
    intros [Hin|Hin]%elem_of_app.
    + by apply get_news_fresh in Hin as [? _].
    + specialize (IH (list_to_set (ids (get_news posted feed)) ∪ posted)).
      rewrite E in IH. apply IH in Hin. set_solver.
Qed.

Lemma news_cycles_once (feeds : list (list feed_item)) (posted : gset string) :
  Forall (λ out, NoDup (ids out)) (news_cycles posted feeds).2 →
  NoDup (ids (concat (news_cycles posted feeds).2)).
Proof.
  revert posted. induction feeds as [|feed rest IH]; intros posted; simpl.
  - intros _. constructor.
  - rewrite news_loop_spec.
    pose proof (news_cycles_fresh rest
                  (list_to_set (ids (get_news posted feed)) ∪ posted)) as Hf.
    specialize (IH (list_to_set (ids (get_news posted feed)) ∪ posted)).
    destruct (news_cycles _ rest) as [final outs]. simpl in *.
    intros [Hout Houts]%Forall_cons. unfold ids in *. rewrite fmap_app.
    apply NoDup_app. split; [done|]. split; [|by apply IH].
    intros uid Hin (n & -> & Hn)%list_elem_of_fmap.
    apply (Hf n Hn). set_solver.
Qed.

(** C3, as stated, fails: an unseen item beyond the truncation point can carry
    the identifier of a returned item of the same batch. On ten entries
    followed by a second entry with the first url, the eleventh item is
    unseen and cut off, its identifier is in the seen-set after the run, and
    no later cycle publishes that identifier again, whatever is fed. *)
Lemma surplus_duplicate_is_marked :
  drop 10 (unseen ∅ ten_then_first) = [normalize "u01" (url_item "u01")]
  ∧ "u01" ∈ fst (news_loop ∅ ten_then_first)
  ∧ (∀ feeds,
       "u01" ∉ ids (concat (news_cycles (fst (news_loop ∅ ten_then_first))
                                        feeds).2))
  ∧ ¬ (∀ posted feed n,
         n ∈ drop 10 (unseen posted feed) → id n ∉ fst (news_loop posted feed)).
Proof.
  assert (Hin : "u01" ∈ fst (news_loop ∅ ten_then_first))
    by (apply (bool_decide_unpack _); by vm_compute).
  assert (Hcut : drop 10 (unseen ∅ ten_then_first)
                 = [normalize "u01" (url_item "u01")]) by (by vm_compute).
  split; [done|]. split; [done|]. split.
  - intros feeds (n & Hid & Hn)%list_elem_of_fmap.
    apply news_cycles_fresh in Hn. rewrite <- Hid in Hn. done.
  - intros Hall.
    apply (Hall ∅ ten_then_first (normalize "u01" (url_item "u01"))); [|done].
    rewrite Hcut. left.
Qed.








(** ** Options-flow summary *)

Section OptionsFlow.
Context `{Builtins}.

Lemma sum_volume_cons (ty : string) (x : json) (rest : list json) (acc : Z) :
  sum_volume ty (x :: rest) acc
  = c ← contribution ty x; sum_volume ty rest (acc + c).
Proof.
  simpl. unfold contribution.
  destruct (contract_type_is x ty) as [[]|e]; simpl; [done| |done].
  by rewrite Z.add_0_r.
Qed.

Lemma eq_str_declared (det : list (string * json)) (ty : string) :
  PyJson.eq_str (default JNull (PyJson.lookup "contract_type" det)) ty
  = bool_decide (match PyJson.lookup "contract_type" det with
                 | Some (JStr s) => Some s
                 | _ => None
                 end = Some ty).
Proof.
  destruct (PyJson.lookup "contract_type" det) as [j|]; simpl; [|done].
  destruct j as [| | | |s| |]; simpl; try done.
  destruct (String.eqb_spec s ty) as [->|Hne].
  - by rewrite bool_decide_eq_true_2.
  - rewrite bool_decide_eq_false_2; [done|congruence].
Qed.

Lemma eq_str_call_or_put (j : json) (ty : string) :
  ty = "call" ∨ ty = "put" → PyJson.eq_str j ty = true →
  PyJson.eq_str j "call" || PyJson.eq_str j "put" = true.
Proof. intros [-> | ->] ->; [done | by rewrite orb_true_r]. Qed.

(** A tolerated record contributes its day volume to the total of its
    declared type and nothing to the other total. *)
Lemma tolerated_contribution (x : json) (ty : string) :
  tolerated x = true → ty = "call" ∨ ty = "put" →
  contribution ty x
  = Ok (if bool_decide (declared_type x = Some ty) then day_volume x else 0).
Proof.
  intros Htol Hty. destruct x as [| | | | | |d]; try done.
  revert Htol. unfold contribution, tolerated, contract_type_is, declared_type,
    contract_volume, day_volume. simpl.
  destruct (PyJson.lookup "details" d) as [[| | | | | |det]|]; simpl; try done.
  rewrite <- eq_str_declared.
  destruct (PyJson.eq_str (default JNull (PyJson.lookup "contract_type" det)) ty)
    eqn:Hct; [|done].
  rewrite (eq_str_call_or_put _ _ Hty Hct).
  destruct (PyJson.lookup "day" d) as [[| | | | | |day]|]; simpl; try done.
  destruct (PyJson.lookup "volume" day) as [v|]; simpl; [|done].
  by destruct (PyJson.to_int v).
Qed.

(** A record that is not tolerated makes one of the two sums raise. *)
Lemma not_tolerated_contribution (x : json) :
  tolerated x = false →
  ∃ e, contribution "call" x = Raise e ∨ contribution "put" x = Raise e.
Proof.
  destruct x as [| | | | | |d];
    try (intros _; exists AttributeError; by left).
  unfold contribution, tolerated, contract_type_is, contract_volume. simpl.
  destruct (PyJson.lookup "details" d) as [[| | | | | |det]|]; simpl;
    try done; try (intros _; exists AttributeError; by left).
  destruct (PyJson.eq_str (default JNull (PyJson.lookup "contract_type" det))
                          "call"); simpl.
  - destruct (PyJson.lookup "day" d) as [[| | | | | |day]|]; simpl;
      try done; try (intros _; exists AttributeError; by left).
    destruct (PyJson.lookup "volume" day) as [v|]; simpl; [|done].
    destruct (PyJson.to_int v) as [n|e]; [done|]. intros _. exists e. by left.
  - destruct (PyJson.eq_str (default JNull (PyJson.lookup "contract_type" det))
                            "put"); simpl; [|done].
    destruct (PyJson.lookup "day" d) as [[| | | | | |day]|]; simpl;
      try done; try (intros _; exists AttributeError; by right).
    destruct (PyJson.lookup "volume" day) as [v|]; simpl; [|done].
    destruct (PyJson.to_int v) as [n|e]; [done|]. intros _. exists e. by right.
Qed.

Lemma sum_volume_tolerated (ty : string) (results : list json) (acc : Z) :
  forallb tolerated results = true → ty = "call" ∨ ty = "put" →
  sum_volume ty results acc = Ok (acc + total_volume ty results).
Proof.
  intros Hall Hty. revert acc Hall.
  induction results as [|x rest IH]; intros acc Hall.
  - simpl. by rewrite Z.add_0_r.
  - apply andb_true_iff in Hall as [Hx Hrest].
    rewrite sum_volume_cons, (tolerated_contribution x ty Hx Hty).
    cbn [mbind res_bind]. rewrite IH by done. cbn [total_volume].
    f_equal. lia.
Qed.

Lemma sum_volume_raises (ty : string) (results : list json) (acc : Z) :
  (∃ x e, x ∈ results ∧ contribution ty x = Raise e) →
  ∃ e, sum_volume ty results acc = Raise e.
Proof.
  intros (x & e & Hin & Hx). revert acc.
  induction results as [|y rest IH]; intros acc; [by inv Hin|].
  rewrite sum_volume_cons.
  destruct (contribution ty y) as [c|e'] eqn:Hy; [|by exists e'].
  cbn [mbind res_bind]. apply IH. inv Hin; [congruence|done].
Qed.

Lemma options_flow_body_on_list (d : list (string * json)) (results : list json) :
  PyJson.lookup "results" d = Some (JList results) →
  options_flow_body (JDict d)
  = calls_vol ← sum_volume "call" results 0;
    puts_vol ← sum_volume "put" results 0;
    if (calls_vol =? 0) && (puts_vol =? 0) then Ok None
    else Ok (Some (calls_vol, puts_vol)).
Proof.
  intros Hres. unfold options_flow_body. simpl. rewrite Hres. simpl.
  unfold PyJson.or. simpl. by destruct results.
Qed.

(** C4, as amended. [polygon_options_flow] never raises. It returns [None]
    when the integration is not configured or the fetch gave nothing. On a
    payload whose [results] is a list of records: when every record is
    tolerated (its type missing or unrecognised, or it is a call or a put
    whose volume is missing or accepted by [int]), the result is the summary
    of the specification, which sums the day volumes by declared type,
    counts a missing type or volume as zero, and is absent exactly when both
    totals are zero; when some record is not tolerated (a call or a put whose
    volume [int] rejects among them), the result is [None]. The contracts
    call 50, put 30 and a call without volume give calls 50 and puts 30; no
    contract at all gives [None]. *)
Theorem options_flow_spec (polygon_key : option string) (data : json) :
  (∃ r, polygon_options_flow polygon_key data = Ok r)
  ∧ (PyStr.truthy polygon_key = false ∨ PyJson.truthy data = false →
     polygon_options_flow polygon_key data = Ok None)
  ∧ (∀ d results,
       PyStr.truthy polygon_key = true → data = JDict d →
       PyJson.lookup "results" d = Some (JList results) →
       (forallb tolerated results = true →
        polygon_options_flow polygon_key data = Ok (summary results))
       ∧ (forallb tolerated results = false →
          polygon_options_flow polygon_key data = Ok None))
  ∧ polygon_options_flow (Some "key")
      (snapshot [contract "call" (JInt 50); contract "put" (JInt 30);
                 contract_no_volume "call"])
    = Ok (Some (50, 30))
  ∧ polygon_options_flow (Some "key") (snapshot []) = Ok None.
Proof.
  split; [|split; [|split; [|split]]].
  - unfold polygon_options_flow, try_except.
    destruct (PyStr.truthy polygon_key); simpl; [|by eexists].
    destruct (PyJson.truthy data); simpl; [|by eexists].
    destruct (options_flow_body data); by eexists.
  - unfold polygon_options_flow. intros [-> | ->]; [done|].
    by destruct (PyStr.truthy polygon_key).
  - intros d results Hkey -> Hres.
    assert (Htruthy : PyJson.truthy (JDict d) = true) by (by destruct d).
    unfold polygon_options_flow. rewrite Hkey, Htruthy. simpl.
    rewrite (options_flow_body_on_list _ _ Hres). split.
    + intros Hall.
      rewrite !sum_volume_tolerated by first [done | by left | by right].
      cbn [mbind res_bind try_except]. rewrite !Z.add_0_l. unfold summary.
      by destruct (_ && _).
    + intros Hnot.
      assert (∃ x, x ∈ results ∧ tolerated x = false) as (x & Hin & Hx).
      { clear Hres. induction results as [|y rest IH]; [done|].
        simpl in Hnot. apply andb_false_iff in Hnot as [Hy|Hrest].
        - exists y. split; [left|done].
        - destruct (IH Hrest) as (x & ? & ?). exists x. split; [by right|done]. }
      destruct (not_tolerated_contribution x Hx) as (e & [He|He]).
      * destruct (sum_volume_raises "call" results 0) as [e' ->];
          [by exists x, e|]. done.
      * destruct (sum_volume_raises "put" results 0) as [e' ->];
          [by exists x, e|].
        by destruct (sum_volume "call" results 0).
  - reflexivity.
  - reflexivity.
Qed.

End OptionsFlow.

(** The theorem at a configured integration and a snapshot of three
    contracts, one of them without a type. *)
Lemma options_flow_spec_witness :
  @polygon_options_flow Sample.builtins (Some "key")
    (snapshot [contract "call" (JStr "50"); JDict []; contract "put" (JFloat 30.5)])
  = Ok (Some (50, 30)).
Proof.
  destruct (@options_flow_spec Sample.builtins (Some "key")
              (snapshot [contract "call" (JStr "50"); JDict [];
                         contract "put" (JFloat 30.5)])) as (_ & _ & H & _).
  destruct (H [("status", JStr "OK");
               ("results", JList [contract "call" (JStr "50"); JDict [];
                                  contract "put" (JFloat 30.5)])]
              [contract "call" (JStr "50"); JDict [];
               contract "put" (JFloat 30.5)]) as [H' _];
    [reflexivity | reflexivity | reflexivity |].
  rewrite H'; [|by vm_compute]. by vm_compute.
Defined.

(** C4, as stated, fails: a call whose volume is [null] does not count as
    zero; [int] raises on it and the whole summary is absent, where the
    specification's summary gives calls 50. *)
Lemma malformed_volume_drops_summary :
  @polygon_options_flow Sample.builtins (Some "key")
    (snapshot [contract "call" (JInt 50); contract "call" JNull])
  = Ok None
  ∧ @summary Sample.builtins [contract "call" (JInt 50); contract "call" JNull]
    = Some (50, 0).
Proof. split; reflexivity. Qed.

(** ** Ordering of timestamps *)

Lemma string_compare_OT (a b : string) :
  String.compare a b = String_as_OT.compare a b.
Proof.
  revert b. induction a as [|c a IH]; intros [|c' b]; by simpl.
Qed.

Lemma ltb_lt (a b : string) : String.ltb a b = true ↔ String_as_OT.lt a b.
Proof.
  unfold String.ltb, String_as_OT.lt. rewrite string_compare_OT.
  by destruct (String_as_OT.compare a b).
Qed.

Lemma ltb_irrefl (a : string) : String.ltb a a = false.
Proof.
  apply not_true_is_false. rewrite ltb_lt.
  apply (irreflexivity String_as_OT.lt).
Qed.

Lemma ltb_trans (a b c : string) :
  String.ltb a b = true → String.ltb b c = true → String.ltb a c = true.
Proof. rewrite !ltb_lt. apply (transitivity (R := String_as_OT.lt)). Qed.

Lemma ltb_trichotomy (a b : string) :
  String.ltb a b = false → String.ltb b a = false → a = b.
Proof.
  unfold String.ltb. rewrite (String.compare_antisym a b).
  destruct (String.compare b a) eqn:E; simpl; try done.
  intros _ _. symmetry. by apply String.compare_eq_iff.
Qed.


#[local] Instance key_lt_trans : Transitive key_lt.
Proof. intros a b c. unfold key_lt. apply ltb_trans. Qed.

(** ** The sort of [parse_intraday] *)

Lemma insert_by_key_perm (x : string * json) (l : list (string * json)) :
  insert_by_key x l ≡ₚ x :: l.
Proof.
  induction l as [|y l IH]; simpl; [done|].
  destruct (String.ltb y.1 x.1); [|done].
  rewrite IH. apply Permutation_swap.
Qed.

Lemma sorted_by_key_perm (l : list (string * json)) : sorted_by_key l ≡ₚ l.
Proof.
  induction l as [|x l IH]; simpl; [done|].
  by rewrite insert_by_key_perm, IH.
Qed.





(** ** Bar series parser *)

Section Parser.
Context `{Builtins}.

Lemma parse_loop_convert (items : list (string * json))
    (closes : list float) (hlcs : list hlc) (vols : list Z) :
  parse_loop items closes hlcs vols
  = fs ← convert_all items.*2;
    Ok (closes ++ (close_of <$> fs), hlcs ++ (hlc_of <$> fs),
        vols ++ (vol_of <$> fs)).
Proof.
  revert closes hlcs vols.
  induction items as [|[k v] items IH]; intros closes hlcs vols;
    cbn [parse_loop].
  - simpl. by rewrite !app_nil_r.
  - rewrite fmap_cons. cbn [convert_all snd].
    destruct (bar_fields v) as [[[[c h] l] vol]|e]; [|done].
    cbn [mbind res_bind]. rewrite IH.
    destruct (convert_all items.*2) as [fs|e]; [|done].
    cbn [mbind res_bind]. by rewrite <- !app_assoc.
Qed.

Lemma convert_all_Forall2 (bars : list json)
    (fs : list (float * float * float * Z)) :
  convert_all bars = Ok fs ↔ Forall2 (λ v f, bar_fields v = Ok f) bars fs.
Proof.
  revert fs. induction bars as [|v bars IH]; intros fs; simpl.
  - split; [intros [= <-]; constructor | by inversion 1].
  - split.
    + destruct (bar_fields v) as [f|e] eqn:Hv; simpl; [|done].
      destruct (convert_all bars) as [fs'|e]; simpl; [|done].
      intros [= <-]. constructor; [done|]. by apply IH.
    + inversion 1 as [|? f ? fs' Hv Hrest]; subst. rewrite Hv. simpl.
      apply IH in Hrest. by rewrite Hrest.
Qed.


Lemma convert_all_raises (items : list (string * json)) (kv : string * json)
    (e : exn) :
  kv ∈ items → bar_fields kv.2 = Raise e →
  ∃ e', convert_all items.*2 = Raise e'.
Proof.
  intros Hin Hkv. induction items as [|[k v] items IH]; [by inv Hin|].
  rewrite fmap_cons. cbn [convert_all snd].
  destruct (bar_fields v) as [f|e'] eqn:Hv; [|by eexists].
  cbn [mbind res_bind]. destruct IH as [e' ->]; [|by eexists].
  inv Hin; [|done]. simpl in Hkv. congruence.
Qed.

(** A bar with a missing or non-numeric field is not converted. *)
Lemma malformed_bar_raises (v : json) :
  malformed_bar v → ∃ e, bar_fields v = Raise e.
Proof.
  intros (key & Hkey & Hbad). unfold bar_fields, float_field.
  destruct v as [| | | | | |d]; try (by eexists).
  simpl.
  repeat match goal with
  | |- context [PyJson.lookup ?k d] =>
      let E := fresh "E" in
      destruct (PyJson.lookup k d) as [?|] eqn:E; simpl; [|by eexists]
  | |- context [PyJson.to_float ?x] =>
      let E := fresh "F" in
      destruct (PyJson.to_float x) as [?|?] eqn:E; simpl; [|by eexists]
  end.
  exfalso. unfold bar_keys in Hkey.
  repeat (apply elem_of_cons in Hkey as [->|Hkey];
          [match goal with
           | E : PyJson.lookup _ d = Some ?x, F : PyJson.to_float ?x = Ok _ |- _ =>
               rewrite E in Hbad; destruct Hbad as [e Hbad]; congruence
           end|]).
  by inv Hkey.
Qed.

(** The parser on a payload whose time series is a [dict] of entries. *)
Lemma parse_intraday_entries (d its : list (string * json)) :
  PyJson.lookup series_key d = Some (JDict its) → its ≠ [] →
  parse_intraday (JDict d)
  = match convert_all (sorted_by_key its).*2 with
    | Ok fs =>
        match last fs with
        | Some f => Ok (Some (close_of <$> fs, hlc_of <$> fs, vol_of <$> fs,
                              close_of f))
        | None => Ok None
        end
    | Raise _ => Ok None
    end.
Proof.
  intros Hts Hne. unfold parse_intraday, parse_intraday_body. simpl.
  unfold series_key in Hts. rewrite Hts. simpl.
  unfold PyJson.or. simpl.
  destruct its as [|kv its]; [done|]. cbn [Py.is_empty negb PyJson.items].
  cbn [mbind res_bind]. rewrite parse_loop_convert.
  destruct (convert_all (sorted_by_key (kv :: its)).*2) as [fs|e]; [|done].
  cbn [mbind res_bind app]. unfold Py.index_last. rewrite fmap_last.
  by destruct (last fs).
Qed.

Lemma parse_intraday_no_series (j : json) :
  (∀ d its, j = JDict d → PyJson.lookup series_key d = Some (JDict its) →
            its = []) →
  parse_intraday j = Ok None.
Proof.
  intros Hno. unfold parse_intraday, parse_intraday_body.
  destruct j as [| | | | | |d]; try done. simpl.
  fold series_key.
  destruct (PyJson.lookup series_key d) as [ts|] eqn:Hts; simpl; [|done].
  unfold PyJson.or. destruct (PyJson.truthy ts) eqn:Ht.
  - rewrite Ht. cbn [negb].
    destruct ts as [|b|n|x|s|l|its]; try done.
    rewrite (Hno d its eq_refl Hts) in Ht. done.
  - done.
Qed.

(** C7. [parse_intraday] never raises: it always returns. It returns [None]
    on an empty payload, on a payload that is not a [dict] or lacks the time
    series, on a time series that is empty or not a [dict], and whenever a
    bar is not converted, in particular a bar with a missing or non-numeric
    field. When it returns a result, every bar of the payload was converted:
    a malformed payload never yields a partial result. *)
Theorem parse_intraday_total (series_json : json) :
  (∃ r, parse_intraday series_json = Ok r)
  ∧ parse_intraday (JDict []) = Ok None
  ∧ ((∀ d, series_json ≠ JDict d) → parse_intraday series_json = Ok None)
  ∧ (∀ d, series_json = JDict d → PyJson.lookup series_key d = None →
          parse_intraday series_json = Ok None)
  ∧ (∀ d ts, series_json = JDict d → PyJson.lookup series_key d = Some ts →
             (∀ its, ts = JDict its → its = []) →
             parse_intraday series_json = Ok None)
  ∧ (∀ d its kv,
       series_json = JDict d →
       PyJson.lookup series_key d = Some (JDict its) → kv ∈ its →
       ((∃ e, bar_fields kv.2 = Raise e) ∨ malformed_bar kv.2) →
       parse_intraday series_json = Ok None)
  ∧ (∀ closes hlcs vols last_close,
       parse_intraday series_json = Ok (Some (closes, hlcs, vols, last_close)) →
       ∃ d its fs,
         series_json = JDict d
         ∧ PyJson.lookup series_key d = Some (JDict its)
         ∧ Forall2 (λ kv f, bar_fields kv.2 = Ok f) (sorted_by_key its) fs
         ∧ length fs = length its
         ∧ closes = close_of <$> fs ∧ hlcs = hlc_of <$> fs
         ∧ vols = vol_of <$> fs).
Proof.
  split; [|split; [|split; [|split; [|split; [|split]]]]].
  - unfold parse_intraday, try_except.
    destruct (parse_intraday_body series_json); by eexists.
  - reflexivity.
  - intros Hnd. apply parse_intraday_no_series. intros d its ->.
    by destruct (Hnd d).
  - intros d -> Hnone. apply parse_intraday_no_series.
    intros d' its [= <-]. congruence.
  - intros d ts -> Hts Hempty. apply parse_intraday_no_series.
    intros d' its [= <-] Hts'. apply Hempty. congruence.
  - intros d its kv -> Hts Hin Hbad.
    assert (∃ e, bar_fields kv.2 = Raise e) as [e He].
    { destruct Hbad as [?|Hm]; [done|]. by apply malformed_bar_raises. }
    rewrite (parse_intraday_entries d its Hts) by (intros ->; by inv Hin).
    assert (Hin' : kv ∈ sorted_by_key its) by (by rewrite sorted_by_key_perm).
    destruct (convert_all_raises _ _ _ Hin' He) as [e' ->]. done.
  - intros closes hlcs vols last_close Hres.
    assert (Hcases : (∃ d its, series_json = JDict d
                ∧ PyJson.lookup series_key d = Some (JDict its) ∧ its ≠ [])
              ∨ parse_intraday series_json = Ok None).
    { destruct series_json as [| | | | | |d];
        try (right; apply parse_intraday_no_series; by intros ? ? [=]).
      destruct (PyJson.lookup series_key d) as [ts|] eqn:Hts.
      2:{ right. apply parse_intraday_no_series. intros d' its [= <-].
          congruence. }
      destruct ts as [| | | | | |its];
        try (right; apply parse_intraday_no_series; intros d' its' [= <-];
             congruence).
      destruct its as [|kv its].
      - right. apply parse_intraday_no_series. intros d' its' [= <-].
        congruence.
      - left. by exists d, (kv :: its). }
    destruct Hcases as [(d & its & -> & Hts & Hne)|Hnone]; [|congruence].
    rewrite (parse_intraday_entries d its Hts Hne) in Hres.
    destruct (convert_all (sorted_by_key its).*2) as [fs|e] eqn:Hconv;
      [|done].
    destruct (last fs) as [f|]; [|done].
    injection Hres as <- <- <- <-.
    apply convert_all_Forall2 in Hconv.
    apply Forall2_fmap_l in Hconv.
    exists d, its, fs. repeat split; try done.
    rewrite <- (Forall2_length _ _ _ Hconv).
    by rewrite sorted_by_key_perm.
Qed.


End Parser.

(** The parser on three bars listed out of order. *)
Example parse_three_bars :
  @parse_intraday Sample.builtins (JDict (payload three_bars))
  = Ok (Some ([9; 10.25; 11]%float,
              [(10, 8, 9); (11.5, 9.5, 10.25); (12, 10, 11)]%float,
              [100; 200; 300], 11%float)).
Proof. by vm_compute. Qed.


(** The theorem at a time series with a bar that lacks its volume. *)
Lemma parse_intraday_total_witness :
  @parse_intraday Sample.builtins
    (JDict (payload (("2024-01-02 16:00:00", bar_without_volume) :: three_bars)))
  = Ok None.
Proof.
  destruct (@parse_intraday_total Sample.builtins
    (JDict (payload (("2024-01-02 16:00:00", bar_without_volume) :: three_bars))))
    as (_ & _ & _ & _ & _ & H & _).
  apply (H (payload (("2024-01-02 16:00:00", bar_without_volume) :: three_bars))
           (("2024-01-02 16:00:00", bar_without_volume) :: three_bars)
           ("2024-01-02 16:00:00", bar_without_volume)).
  - reflexivity.
  - reflexivity.
  - left.
  - right. exists "5. volume". split.
    + apply (bool_decide_unpack _). by vm_compute.
    + exact I.
Defined.

(** ** Composition of the price message *)

Section Message.
Context `{Builtins}.

Lemma append_nonempty (a b : string) : a ≠ "" → a +:+ b ≠ "".
Proof. by destruct a. Qed.


(** C10. In the texts that [price_loop] composes, an average or a VWAP that
    was computed and equals [0.0] leaves no annotation, exactly as
    insufficient data does: [ema_txt] is empty when either average is [0.0]
    although both were computed, and when either is [None]; [vwap_txt] is
    empty when the VWAP is [0.0] and when it is [None]. Values other than
    zero are annotated. The message embeds the three texts as they are. *)
Theorem zero_indicator_omitted (closes : list float) (hlcs : list hlc)
    (vols : list Z) (last_close : float) (spike_txt ema_txt vwap_txt : string) :
  indicator_txts (closes, hlcs, vols, last_close)
  = Ok (spike_txt, ema_txt, vwap_txt) →
  (∀ e9 e21,
     ema (Py.last_n 50 closes) 9 = Ok (Some e9) →
     ema (Py.last_n 50 closes) 21 = Ok (Some e21) →
     ((e9 =? 0)%float = true ∨ (e21 =? 0)%float = true → ema_txt = "")
     ∧ ((e9 =? 0)%float = false → (e21 =? 0)%float = false → ema_txt ≠ ""))
  ∧ (ema (Py.last_n 50 closes) 9 = Ok None
     ∨ ema (Py.last_n 50 closes) 21 = Ok None → ema_txt = "")
  ∧ (∀ v,
       calc_vwap (Py.last_n 120 hlcs) (Py.last_n 120 vols) = Ok (Some v) →
       ((v =? 0)%float = true → vwap_txt = "")
       ∧ ((v =? 0)%float = false → vwap_txt ≠ ""))
  ∧ (calc_vwap (Py.last_n 120 hlcs) (Py.last_n 120 vols) = Ok None →
     vwap_txt = "")
  ∧ (∀ sym snap,
       price_message sym (closes, hlcs, vols, last_close) snap
       = Ok (dot_of (change_of closes last_close) +:+ " **" +:+ sym +:+ "** "
             +:+ fmt_2f last_close +:+ " ("
             +:+ fmt_signed_2f (change_of closes last_close) +:+ ")"
             +:+ spike_txt +:+ ema_txt +:+ vwap_txt +:+ poly_txt_of snap)).
Proof.
  intros Htxts.
  assert (∃ ema9 ema21 vwap_val,
            ema (Py.last_n 50 closes) 9 = Ok ema9
            ∧ ema (Py.last_n 50 closes) 21 = Ok ema21
            ∧ calc_vwap (Py.last_n 120 hlcs) (Py.last_n 120 vols) = Ok vwap_val
            ∧ ema_txt = ema_txt_of ema9 ema21
            ∧ vwap_txt = vwap_txt_of vwap_val)
    as (ema9 & ema21 & vwap_val & H9 & H21 & Hv & -> & ->).
  { revert Htxts. unfold indicator_txts.
    destruct (ema (Py.last_n 50 closes) 9) as [ema9|]; [|done].
    destruct (ema (Py.last_n 50 closes) 21) as [ema21|]; [|done].
    destruct (calc_vwap _ _) as [vwap_val|]; [|done].
    destruct (volume_spike vols) as [spike|]; [|done].
    cbn [mbind res_bind]. intros [= _ <- <-]. by exists ema9, ema21, vwap_val. }
  rewrite H9, H21, Hv.
  split; [|split; [|split; [|split]]].
  - intros e9 e21 [= ->] [= ->]. unfold ema_txt_of. simpl.
    unfold Py.float_truthy. split.
    + intros [-> | ->]; [done|]. by rewrite andb_false_r.
    + intros -> ->. simpl. by apply append_nonempty.
  - intros [[= ->] | [= ->]]; [done|]. unfold ema_txt_of. by destruct ema9.
  - intros v [= ->]. unfold vwap_txt_of. simpl. unfold Py.float_truthy. split.
    + by intros ->.
    + intros ->. simpl. by apply append_nonempty.
  - by intros [= ->].
  - intros sym snap. unfold price_message. by rewrite Htxts.
Qed.

End Message.

(** The theorem at 21 bars whose prices are all [0.0]: both averages and the
    VWAP are computed, all three are [0.0], and no annotation appears. *)
Lemma zero_indicator_omitted_witness :
  ema (Py.last_n 50 (replicate 21 0%float)) 9 = Ok (Some 0%float)
  ∧ ema (Py.last_n 50 (replicate 21 0%float)) 21 = Ok (Some 0%float)
  ∧ calc_vwap (Py.last_n 120 (replicate 21 (0, 0, 0)%float))
              (Py.last_n 120 (replicate 21 1)) = Ok (Some 0%float)
  ∧ @indicator_txts Sample.builtins flat_zero = Ok ("", "", "")
  ∧ @price_message Sample.builtins "AAPL" flat_zero None
    = Ok "🟢 **AAPL** 0.00 (+0.00)".
Proof.
  destruct (@zero_indicator_omitted Sample.builtins
              (replicate 21 0%float) (replicate 21 (0, 0, 0)%float)
              (replicate 21 1) 0%float "" "" "") as (_ & _ & _ & _ & H).
  { by vm_compute. }
  do 4 (split; [by vm_compute|]).
  etrans; [exact (H "AAPL" None) | by vm_compute].
Defined.

(** * Further properties of the code *)

(** ** News de-duplication over many cycles *)

Lemma ids_unseen (posted : gset string) (feed : list feed_item) :
  ids (unseen posted feed) = omap (passes posted) feed.
Proof.
  unfold ids, unseen. induction feed as [|item feed IH]; [done|].
  cbn [omap list_omap]. destruct (passes posted item) as [uid|]; simpl.
  - f_equal. apply IH.
  - apply IH.
Qed.

Lemma passes_sublist (posted : gset string) (feed : list feed_item) :
  omap (passes posted) feed `sublist_of` omap uid_of feed.
Proof.
  induction feed as [|item feed IH]; [constructor|]. cbn [omap list_omap].
  destruct (passes posted item) as [uid|] eqn:Hp.
  - apply passes_Some in Hp as (-> & _ & _). by constructor.
  - destruct (uid_of item); [by constructor|done].
Qed.

Lemma unseen_NoDup (posted : gset string) (feed : list feed_item) :
  NoDup (omap uid_of feed) → NoDup (ids (unseen posted feed)).
Proof.
  intros Hnd. rewrite ids_unseen.
  eapply sublist_NoDup; [exact Hnd | apply passes_sublist].
Qed.

Lemma get_news_NoDup (posted : gset string) (feed : list feed_item) :
  NoDup (omap uid_of feed) → NoDup (ids (get_news posted feed)).
Proof.
  intros Hnd. rewrite get_news_unseen. unfold ids. rewrite fmap_take.
  eapply sublist_NoDup; [by apply unseen_NoDup | apply sublist_take].
Qed.

(** X1. Over any number of cycles the seen-set only grows, and by exactly the
    identifiers of the items that were published. *)
Theorem news_cycles_seen_set (feeds : list (list feed_item))
    (posted : gset string) :
  (news_cycles posted feeds).1
  = list_to_set (ids (concat (news_cycles posted feeds).2)) ∪ posted.
Proof.
  revert posted. induction feeds as [|feed rest IH]; intros posted; simpl.
  - set_solver.
  - rewrite news_loop_spec.
    specialize (IH (list_to_set (ids (get_news posted feed)) ∪ posted)).
    destruct (news_cycles _ rest) as [final outs]. simpl in *.
    rewrite IH. unfold ids. rewrite fmap_app, list_to_set_app_L. set_solver.
Qed.

(** X2. When the identifiers inside each fetched feed are pairwise distinct,
    no identifier is published twice, over any number of cycles and from any
    initial seen-set. *)
Theorem distinct_feeds_published_once (feeds : list (list feed_item))
    (posted : gset string) :
  Forall (λ feed, NoDup (omap uid_of feed)) feeds →
  NoDup (ids (concat (news_cycles posted feeds).2)).
Proof.
  revert posted. induction feeds as [|feed rest IH]; intros posted Hall; simpl.
  - constructor.
  - apply Forall_cons in Hall as [Hfeed Hrest]. rewrite news_loop_spec.
    pose proof (news_cycles_fresh rest
                  (list_to_set (ids (get_news posted feed)) ∪ posted)) as Hf.
    specialize (IH (list_to_set (ids (get_news posted feed)) ∪ posted) Hrest).
    destruct (news_cycles _ rest) as [final outs]. simpl in *.
    unfold ids in *. rewrite fmap_app. apply NoDup_app.
    split; [by apply get_news_NoDup|]. split; [|done].
    intros uid Hin (n & -> & Hn)%list_elem_of_fmap.
    apply (Hf n Hn). set_solver.
Qed.

(** The theorem at three cycles whose feeds overlap. *)
Lemma distinct_feeds_published_once_witness :
  NoDup (ids (concat (news_cycles ∅ [eleven_items; ten_then_eleventh;
                                    eleven_items]).2)).
Proof.
  apply (distinct_feeds_published_once
           [eleven_items; ten_then_eleventh; eleven_items] ∅).
  repeat constructor; apply (bool_decide_unpack _); by vm_compute.
Defined.

Lemma passes_union_None (seen posted : gset string) (item : feed_item) :
  passes posted item = None → passes (seen ∪ posted) item = None.
Proof.
  intros Hnone. destruct (passes (seen ∪ posted) item) as [u|] eqn:Hp; [|done].
  apply passes_Some in Hp as (Hu & Hne & Hnot).
  assert (passes posted item = Some u) by (apply passes_Some; set_solver).
  congruence.
Qed.

(** Against a larger seen-set the unseen items are those of the smaller one
    whose identifier is not among the additions. *)
Lemma unseen_union (seen posted : gset string) (feed : list feed_item) :
  unseen (seen ∪ posted) feed
  = filter (λ n, id n ∉ seen) (unseen posted feed).
Proof.
  unfold unseen. induction feed as [|item feed IH]; [done|].
  cbn [omap list_omap]. destruct (passes posted item) as [u|] eqn:Hp.
  - cbn [mbind option_bind]. apply passes_Some in Hp as (Hu & Hne & Hnot).
    destruct (decide (u ∈ seen)) as [Hin|Hin].
    + rewrite filter_cons_False by (simpl; tauto).
      assert (passes (seen ∪ posted) item = None) as ->; [|by simpl].
      destruct (passes (seen ∪ posted) item) as [u'|] eqn:Hp'; [|done].
      apply passes_Some in Hp' as (Hu' & _ & Hnot'). set_solver.
    + rewrite filter_cons_True by done.
      assert (passes (seen ∪ posted) item = Some u) as ->
        by (apply passes_Some; set_solver).
      simpl. by rewrite IH.
  - rewrite (passes_union_None _ _ _ Hp). simpl. apply IH.
Qed.

Lemma filter_not_in_prefix (l1 l2 : list news_item) :
  NoDup (ids (l1 ++ l2)) →
  filter (λ n, id n ∉ (list_to_set (ids l1) : gset string)) (l1 ++ l2) = l2.
Proof.
  unfold ids. rewrite fmap_app. intros (_ & Hdisj & _)%NoDup_app.
  rewrite filter_app.
  assert (H1 : ∀ l, Forall (λ n, id n ∈ (list_to_set (id <$> l1) : gset string)) l →
            filter (λ n, id n ∉ (list_to_set (id <$> l1) : gset string)) l = []).
  { induction 1 as [|x l Hx _ IH]; [done|]. by rewrite filter_cons_False by tauto. }
  assert (H2 : ∀ l, Forall (λ n, id n ∉ (list_to_set (id <$> l1) : gset string)) l →
            filter (λ n, id n ∉ (list_to_set (id <$> l1) : gset string)) l = l).
  { induction 1 as [|x l Hx _ IH]; [done|]. rewrite filter_cons_True by done.
    by rewrite IH. }
  rewrite H1, H2; [done| |].
  - apply Forall_forall. intros n Hn Hin.
    apply elem_of_list_to_set in Hin. apply (Hdisj _ Hin).
    by apply list_elem_of_fmap_2.
  - apply Forall_forall. intros n Hn. apply elem_of_list_to_set.
    by apply list_elem_of_fmap_2.
Qed.

(** After publishing the first [n] unseen items, the unseen items of the same
    feed are the remaining ones. *)
Lemma unseen_after_publishing (posted : gset string) (feed : list feed_item)
    (n : nat) :
  NoDup (ids (unseen posted feed)) →
  unseen (list_to_set (ids (take n (unseen posted feed))) ∪ posted) feed
  = drop n (unseen posted feed).
Proof.
  intros Hnd. rewrite unseen_union.
  rewrite <- (take_drop n (unseen posted feed)) in Hnd.
  pose proof (filter_not_in_prefix _ _ Hnd) as H.
  by rewrite take_drop in H.
Qed.

Lemma news_cycles_refeed (k : nat) (posted : gset string)
    (feed : list feed_item) :
  NoDup (ids (unseen posted feed)) →
  concat (news_cycles posted (replicate k feed)).2
  = take (10 * k) (unseen posted feed)
  ∧ (news_cycles posted (replicate k feed)).1
    = list_to_set (ids (take (10 * k) (unseen posted feed))) ∪ posted.
Proof.
  revert posted. induction k as [|k IH]; intros posted Hnd.
  - simpl. split; [done|set_solver].
  - cbn [replicate news_cycles]. rewrite news_loop_spec, get_news_unseen.
    specialize (IH (list_to_set (ids (take 10 (unseen posted feed))) ∪ posted)).
    rewrite (unseen_after_publishing posted feed 10 Hnd) in IH.
    destruct IH as [IH1 IH2].
    { unfold ids. rewrite fmap_drop.
      eapply sublist_NoDup; [exact Hnd | apply sublist_drop]. }
    destruct (news_cycles _ (replicate k feed)) as [final outs].
    cbn [fst snd concat] in *.
    replace (10 * S k)%nat with (10 + 10 * k)%nat by lia.
    rewrite <- take_take_drop. split; [by rewrite IH1|].
    rewrite IH2. unfold ids. rewrite fmap_app, list_to_set_app_L. set_solver.
Qed.

(** X3. The cap loses nothing: when the identifiers in a feed are pairwise
    distinct, feeding the same feed [k] times publishes its unseen items in
    order, ten more per cycle, and once all of them are out a further cycle
    returns nothing. *)
Theorem refeeding_drains (posted : gset string) (feed : list feed_item)
    (k : nat) :
  NoDup (omap uid_of feed) →
  concat (news_cycles posted (replicate k feed)).2
  = take (10 * k) (unseen posted feed)
  ∧ ((length (unseen posted feed) ≤ 10 * k)%nat →
     concat (news_cycles posted (replicate k feed)).2 = unseen posted feed
     ∧ get_news (news_cycles posted (replicate k feed)).1 feed = []).
Proof.
  intros Hnd. pose proof (unseen_NoDup posted feed Hnd) as Hnd'.
  destruct (news_cycles_refeed k posted feed Hnd') as [Hout Hseen].
  split; [done|]. intros Hlen. rewrite Hout, Hseen.
  rewrite take_ge by done. split; [done|].
  rewrite get_news_unseen.
  rewrite <- (take_ge (unseen posted feed) (length (unseen posted feed)))
    at 1 by done.
  rewrite unseen_after_publishing by done. by rewrite drop_all.
Qed.

(** The theorem at eleven fresh entries fed twice: ten, then the eleventh. *)
Lemma refeeding_drains_witness :
  concat (news_cycles ∅ (replicate 2 eleven_items)).2 = unseen ∅ eleven_items
  ∧ get_news (news_cycles ∅ (replicate 2 eleven_items)).1 eleven_items = [].
Proof.
  destruct (refeeding_drains ∅ eleven_items 2) as [_ H].
  - apply (bool_decide_unpack _). by vm_compute.
  - apply H. apply (bool_decide_unpack _). by vm_compute.
Defined.

(** X4. Every item that [get_news] returns is well formed: its identifier is
    non-empty and was not in the seen-set; the identifier is the [uuid] of a
    feed entry when that is present and non-empty, and the entry's [url]
    otherwise; its headline is never empty (it falls back to "News"); its
    [url] is the entry's; and none of its tickers is empty. *)
Theorem returned_item_well_formed (posted : gset string)
    (feed : list feed_item) (n : news_item) :
  n ∈ get_news posted feed →
  id n ≠ "" ∧ (id n ∉ posted) ∧ headline n ≠ "" ∧ ("" ∉ tickers n)
  ∧ ∃ item, item ∈ feed
      ∧ url n = f_url item
      ∧ (PyStr.truthy (f_uuid item) = true → f_uuid item = Some (id n))
      ∧ (PyStr.truthy (f_uuid item) = false → f_url item = Some (id n))
      ∧ (PyStr.truthy (f_title item) = true → f_title item = Some (headline n))
      ∧ (PyStr.truthy (f_title item) = false → headline n = "News").
Proof.
  rewrite get_news_unseen. intros Hin%subseteq_take.
  apply elem_of_unseen in Hin as (item & Hin & Hp & Hn).
  apply passes_Some in Hp as (Hu & Hne & Hnot).
  split; [done|]. split; [done|].
  assert (Hhead : (PyStr.truthy (f_title item) = true
                   → f_title item = Some (headline n))
                  ∧ (PyStr.truthy (f_title item) = false → headline n = "News")
                  ∧ headline n ≠ "").
  { rewrite Hn. unfold normalize, PyStr.or. simpl.
    destruct (f_title item) as [t|] eqn:Ht; simpl.
    - destruct (String.eqb_spec t "") as [->|Hnet]; simpl; [done|].
      repeat split; done.
    - done. }
  destruct Hhead as (Hh1 & Hh2 & Hh3). split; [done|]. split.
  - rewrite Hn. simpl. rewrite list_elem_of_omap.
    intros (o & _ & Ht). destruct o as [t|]; simpl in Ht; [|done].
    destruct (String.eqb_spec t "") as [Heq|Hnet]; simpl in Ht;
      [done|congruence].
  - exists item. split; [done|]. split; [by rewrite Hn|].
    split; [|split; [|done]].
    + intros Ht. unfold uid_of, PyStr.or in Hu. by rewrite Ht in Hu.
    + intros Ht. unfold uid_of, PyStr.or in Hu. by rewrite Ht in Hu.
Qed.

(** The theorem at an entry that has a [uuid], no title and an empty
    ticker. *)
Lemma returned_item_well_formed_witness :
  get_news ∅ [FeedItem (Some "id-1") (Some "https://x/1") None
                       [Some "MSFT"; Some ""; None]]
  = [NewsItem "id-1" "News" (Some "https://x/1") ["MSFT"]]
  ∧ "" ∉ ["MSFT"].
Proof.
  split; [reflexivity|].
  destruct (returned_item_well_formed ∅
              [FeedItem (Some "id-1") (Some "https://x/1") None
                        [Some "MSFT"; Some ""; None]]
              (NewsItem "id-1" "News" (Some "https://x/1") ["MSFT"]))
    as (_ & _ & _ & H & _).
  - vm_compute. left.
  - exact H.
Defined.

(** ** Integers obtained from floats *)

Lemma digits2_pos_bound (m : positive) : Zpos m < 2 ^ Zpos (digits2_pos m).
Proof.
  induction m as [m IH|m IH|]; simpl; [| |done].
  - rewrite Pos2Z.inj_succ, Z.pow_succ_r by lia. lia.
  - rewrite Pos2Z.inj_succ, Z.pow_succ_r by lia. lia.
Qed.

(** [int(x)] of a finite [float] converts back to a [float] without
    overflow. *)
Lemma int_of_float_in_range (x : float) (n : Z) :
  Py.int_of_float x = Ok n → Py.in_float_range n.
Proof.
  unfold Py.int_of_float. pose proof (Prim2SF_valid x) as Hvalid.
  destruct (Prim2SF x) as [s| | |s m e]; try done.
  - intros [= <-]. by vm_compute.
  - intros [= <-]. simpl in Hvalid. unfold bounded, canonical_mantissa in Hvalid.
    apply andb_true_iff in Hvalid as [Hcanon Hemax].
    apply Z.eqb_eq in Hcanon. apply Z.leb_le in Hemax.
    unfold fexp, SpecFloat.emin, prec, emax in *.
    pose proof (digits2_pos_bound m) as Hm.
    assert (Hd : Zpos (digits2_pos m) ≤ 53) by lia.
    assert (Hm53 : Zpos m < 2 ^ 53).
    { eapply Z.lt_le_trans; [exact Hm|]. by apply Z.pow_le_mono_r. }
    assert (Hmag : 0 ≤ Z.shiftl (Zpos m) e < Py.float_limit).
    { destruct (Z.le_gt_cases 0 e) as [He|He].
      - rewrite Z.shiftl_mul_pow2 by done.
        assert (2 ^ e ≤ 2 ^ 971) by (apply Z.pow_le_mono_r; lia).
        assert (0 < 2 ^ e) by (apply Z.pow_pos_nonneg; lia).
        assert ((2 ^ 53 - 1) * 2 ^ 971 < Py.float_limit) by (by vm_compute).
        split; [lia|]. eapply Z.le_lt_trans; [|eassumption].
        apply Z.mul_le_mono_nonneg; lia.
      - rewrite Z.shiftl_div_pow2 by lia.
        assert (0 < 2 ^ (- e)) by (apply Z.pow_pos_nonneg; lia).
        assert (2 ^ 53 < Py.float_limit) by (by vm_compute).
        split; [apply Z.div_pos; lia|].
        eapply Z.le_lt_trans; [apply Z.div_le_upper_bound; [lia|]|].
        + instantiate (1 := Zpos m). nia.
        + lia. }
    unfold Py.in_float_range. destruct s; simpl; lia.
Qed.

(** ** Results of the parser *)

Section ParserResults.
Context `{Builtins}.

(** What a result of [parse_intraday] comes from. *)
Lemma parse_intraday_result (j : json) (closes : list float) (hlcs : list hlc)
    (vols : list Z) (last_close : float) :
  parse_intraday j = Ok (Some (closes, hlcs, vols, last_close)) →
  ∃ d its fs f,
    j = JDict d ∧ PyJson.lookup series_key d = Some (JDict its)
    ∧ convert_all (sorted_by_key its).*2 = Ok fs ∧ last fs = Some f
    ∧ closes = close_of <$> fs ∧ hlcs = hlc_of <$> fs ∧ vols = vol_of <$> fs
    ∧ last_close = close_of f.
Proof.
  intros Hres.
  assert (Hcases : (∃ d its, j = JDict d
              ∧ PyJson.lookup series_key d = Some (JDict its) ∧ its ≠ [])
            ∨ parse_intraday j = Ok None).
  { destruct j as [| | | | | |d];
      try (right; apply parse_intraday_no_series; by intros ? ? [=]).
    destruct (PyJson.lookup series_key d) as [ts|] eqn:Hts.
    2:{ right. apply parse_intraday_no_series. intros d' its [= <-].
        congruence. }
    destruct ts as [| | | | | |its];
      try (right; apply parse_intraday_no_series; intros d' its' [= <-];
           congruence).
    destruct its as [|kv its].
    - right. apply parse_intraday_no_series. intros d' its' [= <-].
      congruence.
    - left. by exists d, (kv :: its). }
  destruct Hcases as [(d & its & -> & Hts & Hne)|Hnone]; [|congruence].
  rewrite (parse_intraday_entries d its Hts Hne) in Hres.
  destruct (convert_all (sorted_by_key its).*2) as [fs|e] eqn:Hconv; [|done].
  destruct (last fs) as [f|] eqn:Hlast; [|done].
  injection Hres as <- <- <- <-. by exists d, its, fs, f.
Qed.

(** X5. The four outputs of [parse_intraday] agree with one another: the
    three lists have the same length, one entry per bar of the payload and at
    least one; each close is the third component of the triple at the same
    position; and the last close is the last element of the closes. *)
Theorem parse_result_consistent (j : json) (closes : list float)
    (hlcs : list hlc) (vols : list Z) (last_close : float) :
  parse_intraday j = Ok (Some (closes, hlcs, vols, last_close)) →
  length hlcs = length closes ∧ length vols = length closes
  ∧ closes ≠ []
  ∧ closes = (λ t : hlc, t.2) <$> hlcs
  ∧ last closes = Some last_close
  ∧ ∃ d its, j = JDict d ∧ PyJson.lookup series_key d = Some (JDict its)
             ∧ length closes = length its.
Proof.
  intros (d & its & fs & f & -> & Hts & Hconv & Hlast & -> & -> & -> & ->)
    %parse_intraday_result.
  rewrite !length_fmap. split; [done|]. split; [done|]. split.
  { intros Hnil. apply fmap_nil_inv in Hnil. by rewrite Hnil in Hlast. }
  split.
  { rewrite <- list_fmap_compose. by apply list_fmap_ext. }
  split; [by rewrite fmap_last, Hlast|].
  exists d, its. split; [done|]. split; [done|].
  apply convert_all_Forall2, Forall2_length in Hconv.
  rewrite length_fmap in Hconv. by rewrite <- Hconv, sorted_by_key_perm.
Qed.

Lemma bar_fields_volume_in_range (v : json) (f : float * float * float * Z) :
  bar_fields v = Ok f → Py.in_float_range (vol_of f).
Proof.
  unfold bar_fields.
  destruct (float_field v "4. close") as [c|]; [|done].
  destruct (float_field v "2. high") as [h|]; [|done].
  destruct (float_field v "3. low") as [l|]; [|done].
  destruct (float_field v "5. volume") as [vf|]; [|done].
  cbn [mbind res_bind].
  destruct (Py.int_of_float vf) as [n|] eqn:Hn; [|done].
  intros [= <-]. by apply int_of_float_in_range in Hn.
Qed.

(** X6. Every volume that [parse_intraday] returns fits in a [float]: it was
    obtained by truncating a finite [float], so converting a parsed volume
    back never overflows. *)
Theorem parsed_volumes_in_range (j : json) (closes : list float)
    (hlcs : list hlc) (vols : list Z) (last_close : float) :
  parse_intraday j = Ok (Some (closes, hlcs, vols, last_close)) →
  Forall Py.in_float_range vols.
Proof.
  intros (d & its & fs & f & -> & Hts & Hconv & Hlast & -> & -> & -> & ->)
    %parse_intraday_result.
  apply convert_all_Forall2 in Hconv. apply Forall_fmap.
  clear Hlast. induction Hconv as [|v g vs gs Hv _ IH]; constructor; [|done].
  by apply (bar_fields_volume_in_range v).
Qed.

End ParserResults.

(** The theorem at three bars listed out of order. *)
Lemma parse_result_consistent_witness :
  [9; 10.25; 11]%float
  = (λ t : hlc, t.2) <$> [(10, 8, 9); (11.5, 9.5, 10.25); (12, 10, 11)]%float
  ∧ last [9; 10.25; 11]%float = Some 11%float.
Proof.
  destruct (@parse_result_consistent Sample.builtins
              (JDict (payload three_bars)) [9; 10.25; 11]%float
              [(10, 8, 9); (11.5, 9.5, 10.25); (12, 10, 11)]%float
              [100; 200; 300] 11%float) as (_ & _ & _ & H1 & H2 & _).
  - by vm_compute.
  - by split.
Defined.

(** The theorem at three bars listed out of order. *)
Lemma parsed_volumes_in_range_witness :
  Forall Py.in_float_range [100; 200; 300].
Proof.
  apply (@parsed_volumes_in_range Sample.builtins
           (JDict (payload three_bars)) [9; 10.25; 11]%float
           [(10, 8, 9); (11.5, 9.5, 10.25); (12, 10, 11)]%float
           [100; 200; 300] 11%float).
  by vm_compute.
Defined.

(** ** The sort on arbitrary entries *)

Lemma ltb_asym (a b : string) : String.ltb a b = true → String.ltb b a = false.
Proof.
  intros Hab. destruct (String.ltb b a) eqn:Hba; [|done].
  pose proof (ltb_trans _ _ _ Hab Hba) as Haa. by rewrite ltb_irrefl in Haa.
Qed.

Lemma key_le_trans (a b c : string * json) : key_le a b → key_le b c → key_le a c.
Proof.
  unfold key_le. intros Hab Hbc.
  destruct (String.ltb c.1 a.1) eqn:Hca; [|done]. exfalso.
  destruct (String.ltb a.1 b.1) eqn:Hab'.
  - pose proof (ltb_trans _ _ _ Hca Hab'). congruence.
  - pose proof (ltb_trichotomy _ _ Hab' Hab) as Heq. rewrite Heq in Hca.
    congruence.
Qed.

Lemma insert_by_key_ascending (x : string * json) (l : list (string * json)) :
  StronglySorted key_le l → StronglySorted key_le (insert_by_key x l).
Proof.
  induction 1 as [|y l Hl IH Hy]; simpl; [repeat constructor|].
  destruct (String.ltb y.1 x.1) eqn:Hyx.
  - constructor; [done|]. rewrite insert_by_key_perm. constructor; [|done].
    by apply ltb_asym.
  - constructor; [by constructor|]. constructor; [done|].
    eapply Forall_impl; [exact Hy|]. intros z Hz. by eapply key_le_trans.
Qed.

Lemma sorted_by_key_ascending (l : list (string * json)) :
  StronglySorted key_le (sorted_by_key l).
Proof.
  induction l as [|x l IH]; simpl; [constructor|].
  by apply insert_by_key_ascending.
Qed.

Lemma sorted_by_key_fixed (l : list (string * json)) :
  StronglySorted key_le l → sorted_by_key l = l.
Proof.
  induction 1 as [|x l Hl IH Hx]; [done|]. simpl. rewrite IH.
  destruct Hx as [|y l' Hxy _]; [done|]. simpl. by rewrite Hxy.
Qed.

(** X7. The sort that [parse_intraday] applies, on any entries, also with
    repeated timestamps: the result holds the same entries, no entry has a
    timestamp smaller than an entry before it, entries that are already in
    ascending order are left as they are, and sorting again changes
    nothing. *)
Theorem sorted_by_key_sorts (l : list (string * json)) :
  sorted_by_key l ≡ₚ l
  ∧ StronglySorted key_le (sorted_by_key l)
  ∧ (StronglySorted key_le l → sorted_by_key l = l)
  ∧ sorted_by_key (sorted_by_key l) = sorted_by_key l.
Proof.
  split; [apply sorted_by_key_perm|].
  split; [apply sorted_by_key_ascending|].
  split; [apply sorted_by_key_fixed|].
  apply sorted_by_key_fixed, sorted_by_key_ascending.
Qed.

(** The theorem at the three sample bars. *)
Lemma sorted_by_key_sorts_witness :
  sorted_by_key (sorted_by_key three_bars) = sorted_by_key three_bars
  ∧ sorted_by_key [("a", JNull); ("a", JInt 1); ("b", JNull)]
    = [("a", JNull); ("a", JInt 1); ("b", JNull)].
Proof.
  destruct (sorted_by_key_sorts three_bars) as (_ & _ & _ & H1).
  destruct (sorted_by_key_sorts [("a", JNull); ("a", JInt 1); ("b", JNull)])
    as (_ & _ & H2 & _).
  split; [exact H1|]. apply H2.
  repeat constructor.
Defined.

(** ** Indicators *)

Lemma ema_loop_app (k e : float) (xs ys : list float) :
  ema_loop k e (xs ++ ys) = ema_loop k (ema_loop k e xs) ys.
Proof. revert e. induction xs as [|x xs IH]; intros e; simpl; [done|apply IH]. Qed.

(** X8. The moving average can be continued: when [ema] of a series is [e],
    [ema] of the series followed by further values is the recurrence
    [e' = x * k + e * (1 - k)] run over the further values from [e], with
    the same [k = 2 / (period + 1)]. In particular one more value [x] gives
    [x * k + e * (1 - k)]. *)
Theorem ema_continues (series more : list float) (period : Z) (k e : float) :
  Py.int_truediv 2 (period + 1) = Ok k →
  ema series period = Ok (Some e) →
  ema (series ++ more) period = Ok (Some (ema_loop k e more))
  ∧ ∀ x, ema (series ++ [x]) period = Ok (Some (x * k + e * (1 - k))%float).
Proof.
  intros Hk Hema.
  assert (Hgen : ∀ ys, ema (series ++ ys) period = Ok (Some (ema_loop k e ys))).
  { intros ys. revert Hema. unfold ema. rewrite length_app, Hk.
    destruct (Z.ltb_spec (Z.of_nat (length series)) period) as [?|Hge]; [done|].
    destruct (Z.ltb_spec (Z.of_nat (length series + length ys)) period)
      as [?|_]; [lia|].
    destruct series as [|x0 rest]; [done|]. simpl. rewrite !drop_0.
    intros [= <-]. by rewrite ema_loop_app. }
  split; [apply Hgen|]. intros x. by rewrite Hgen.
Qed.

(** The theorem at the series 10, 20 continued by 30, with period 2. *)
Lemma ema_continues_witness :
  ∃ k e, ema [10; 20]%float 2 = Ok (Some e)
         ∧ ema [10; 20; 30]%float 2 = Ok (Some (30 * k + e * (1 - k))%float).
Proof.
  exists (2 / 3)%float, (20 * (2 / 3) + 10 * (1 - 2 / 3))%float.
  destruct (ema_continues [10; 20]%float [30]%float 2 (2 / 3)%float
              (20 * (2 / 3) + 10 * (1 - 2 / 3))%float) as [_ H];
    [by vm_compute | by vm_compute |].
  split; [by vm_compute | exact (H 30%float)].
Defined.

Lemma last_n_length {A} (n : nat) (l : list A) :
  length (Py.last_n n l) = (length l `min` n)%nat.
Proof. unfold Py.last_n. rewrite length_drop. lia. Qed.

Lemma last_n_nonempty {A} (n : nat) (l : list A) :
  l ≠ [] → (0 < n)%nat → Py.last_n n l ≠ [].
Proof.
  intros Hl Hn Hnil. apply (f_equal length) in Hnil.
  rewrite last_n_length in Hnil. destruct l; [done|].
  cbn [length] in Hnil. lia.
Qed.


(** X9. In [price_loop] the moving averages never raise: on the closes of a
    parsed series, which are never empty, [ema] of the last 50 closes with
    period 9 or 21 returns, and it returns [None] exactly when there are
    fewer closes than the period. *)
Theorem ema_in_price_loop (closes : list float) (period : Z) :
  closes ≠ [] → period = 9 ∨ period = 21 →
  ∃ r, ema (Py.last_n 50 closes) period = Ok r
       ∧ (r = None ↔ Z.of_nat (length closes) < period).
Proof.
  intros Hne Hp.
  assert (Hk : ∃ k, Py.int_truediv 2 (period + 1) = Ok k).
  { eexists. apply smoothing_constant_defined. lia. }
  destruct Hk as [k Hk].
  pose proof (last_n_length 50 closes) as Hlen.
  destruct (Z.lt_ge_cases (Z.of_nat (length closes)) period) as [Hlt|Hge].
  - exists None. split; [|done]. unfold ema.
    replace (Z.of_nat (length (Py.last_n 50 closes)) <? period) with true;
      [done|]. symmetry. apply Z.ltb_lt. lia.
  - eexists. split.
    + apply (ema_value _ _ k); [by apply last_n_nonempty; [|lia] | lia | done].
    + split; [done|lia].
Qed.

(** The theorem at 21 closes: both averages are computed. *)
Lemma ema_in_price_loop_witness :
  (∃ r, ema (Py.last_n 50 (replicate 21 0%float)) 9 = Ok r
        ∧ (r = None ↔ Z.of_nat (length (replicate 21 0%float)) < 9))
  ∧ (∃ r, ema (Py.last_n 50 (replicate 21 0%float)) 21 = Ok r
          ∧ (r = None ↔ Z.of_nat (length (replicate 21 0%float)) < 21)).
Proof.
  split.
  - apply (ema_in_price_loop (replicate 21 0%float) 9); [discriminate|by left].
  - apply (ema_in_price_loop (replicate 21 0%float) 21);
      [discriminate|by right].
Defined.

Lemma volume_spike_suffix (older vols : list Z) :
  (25 ≤ length vols)%nat → volume_spike (older ++ vols) = volume_spike vols.
Proof.
  intros (o & window & recent & current & -> & Hw & Hr)%split_window.
  rewrite (app_assoc older o).
  by rewrite !volume_spike_unfold.
Qed.

(** X10. [volume_spike] looks at the window of 20 samples and at the current
    sample only: samples older than the last 25 have no influence, and
    neither have the four samples between the window and the current one. *)
Theorem volume_spike_local (older older' window recent recent' : list Z)
    (current : Z) :
  length window = 20%nat → length recent = 4%nat → length recent' = 4%nat →
  volume_spike (older ++ window ++ recent ++ [current])
  = volume_spike (older' ++ window ++ recent' ++ [current])
  ∧ volume_spike (older ++ window ++ recent ++ [current])
    = volume_spike (window ++ recent ++ [current]).
Proof.
  intros Hw Hr Hr'. split.
  - by rewrite !volume_spike_unfold.
  - apply volume_spike_suffix. rewrite !length_app, Hw, Hr. simpl. lia.
Qed.

(** The theorem at a spike with and without older samples and with other
    recent samples. *)
Lemma volume_spike_local_witness :
  volume_spike ([7; 7; 7] ++ replicate 20 10 ++ [1; 2; 3; 4] ++ [200])
  = volume_spike ([] ++ replicate 20 10 ++ [10; 10; 10; 10] ++ [200]).
Proof.
  destruct (volume_spike_local [7; 7; 7] [] (replicate 20 10) [1; 2; 3; 4]
              [10; 10; 10; 10] 200) as [H _]; [reflexivity..|exact H].
Defined.

(** X11. A signal that [volume_spike] reports is sound: there are at least
    25 samples, the reported volume is the most recent sample, the baseline
    (the mean of the window of 20 samples) is not [<= 0], and the reported
    ratio is the current volume over the baseline and is [>= 2.0]. *)
Theorem volume_spike_sound (vols : list Z) (ratio : float) (current : Z) :
  volume_spike vols = Ok (Some (ratio, current)) →
  ∃ older window recent,
    vols = older ++ window ++ recent ++ [current]
    ∧ length window = 20%nat ∧ length recent = 4%nat
    ∧ (Py.to_float (Py.sum window) / 20 <=? 0)%float = false
    ∧ ratio = (Py.to_float current / (Py.to_float (Py.sum window) / 20))%float
    ∧ (2 <=? ratio)%float = true.
Proof.
  intros Hres.
  assert (Hlen : (25 ≤ length vols)%nat).
  { destruct (Nat.ltb_spec (length vols) 25) as [Hlt|?]; [|done].
    unfold volume_spike in Hres. apply Nat.ltb_lt in Hlt.
    by rewrite Hlt in Hres. }
  destruct (split_window vols Hlen) as (older & window & recent & c & -> & Hw & Hr).
  rewrite volume_spike_unfold in Hres by done.
  unfold Py.int_div_float, Py.float_of_int, Py.float_div in Hres.
  destruct (Py.in_float_rangeb (Py.sum window)); [|done].
  cbn [mbind res_bind] in Hres.
  replace (20 =? 0)%float with false in Hres by reflexivity.
  cbn [mbind res_bind] in Hres.
  destruct (Py.to_float (Py.sum window) / 20 <=? 0)%float eqn:Hb; [done|].
  destruct (Py.in_float_rangeb c); [|done]. cbn [mbind res_bind] in Hres.
  rewrite (float_not_le_zero_not_zero _ Hb) in Hres.
  cbn [mbind res_bind] in Hres.
  destruct (2 <=? Py.to_float c / (Py.to_float (Py.sum window) / 20))%float
    eqn:Hr2; [|done].
  injection Hres as <- <-. by exists older, window, recent.
Qed.

(** The theorem at twenty samples of 10 followed by 10, 10, 10, 10, 200. *)
Lemma volume_spike_sound_witness :
  ∃ older window recent,
    replicate 20 10 ++ [10; 10; 10; 10; 200]
    = older ++ window ++ recent ++ [200]
    ∧ length window = 20%nat ∧ length recent = 4%nat
    ∧ (Py.to_float (Py.sum window) / 20 <=? 0)%float = false
    ∧ 20%float = (Py.to_float 200 / (Py.to_float (Py.sum window) / 20))%float
    ∧ (2 <=? 20)%float = true.
Proof.
  apply (volume_spike_sound (replicate 20 10 ++ [10; 10; 10; 10; 200])
           20%float 200).
  by vm_compute.
Defined.

Lemma float_of_int_raises (n : Z) (e : exn) :
  Py.float_of_int n = Raise e → e = OverflowError.
Proof.
  unfold Py.float_of_int. destruct (Py.in_float_rangeb n); [done|].
  by intros [= <-].
Qed.

Lemma vwap_loop_raises (bars : list (hlc * Z)) (pv : float) (cv : Z) (e : exn) :
  vwap_loop pv cv bars = Raise e → e = OverflowError.
Proof.
  revert pv cv. induction bars as [|[[[h l] c] v] bars IH]; intros pv cv;
    [done|]. simpl. unfold Py.float_div, Py.float_mul_int.
  replace (3 =? 0)%float with false by reflexivity. cbn [mbind res_bind].
  destruct (Py.float_of_int v) as [vf|e'] eqn:Hv; cbn [mbind res_bind].
  - apply IH.
  - intros [= <-]. by apply float_of_int_raises in Hv.
Qed.

Lemma calc_vwap_raises_overflow (prices : list hlc) (volumes : list Z)
    (e : exn) :
  calc_vwap prices volumes = Raise e → e = OverflowError.
Proof.
  unfold calc_vwap. destruct (_ || _); [done|].
  destruct (vwap_loop 0 0 (zip prices volumes)) as [[pv cv]|e'] eqn:Hloop;
    cbn [mbind res_bind].
  - destruct (Z.eqb_spec cv 0) as [?|Hnz]; [done|].
    unfold Py.float_div_int.
    destruct (Py.float_of_int cv) as [cf|e'] eqn:Hcv; cbn [mbind res_bind].
    + apply Z.eqb_neq in Hnz. by rewrite Hnz.
    + intros [= <-]. by apply float_of_int_raises in Hcv.
  - intros [= <-]. by apply vwap_loop_raises in Hloop.
Qed.

Lemma volume_spike_raises_overflow (vols : list Z) (e : exn) :
  volume_spike vols = Raise e → e = OverflowError.
Proof.
  intros Hres.
  assert (Hlen : (25 ≤ length vols)%nat).
  { destruct (Nat.ltb_spec (length vols) 25) as [Hlt|?]; [|done].
    unfold volume_spike in Hres. apply Nat.ltb_lt in Hlt.
    by rewrite Hlt in Hres. }
  destruct (split_window vols Hlen)
    as (older & window & recent & c & -> & Hw & Hr).
  rewrite volume_spike_unfold in Hres by done.
  unfold Py.int_div_float, Py.float_div in Hres.
  destruct (Py.float_of_int (Py.sum window)) as [sf|e'] eqn:Hs;
    cbn [mbind res_bind] in Hres.
  2:{ injection Hres as <-. by apply float_of_int_raises in Hs. }
  replace (20 =? 0)%float with false in Hres by reflexivity.
  cbn [mbind res_bind] in Hres.
  destruct (sf / 20 <=? 0)%float eqn:Hb; [done|].
  destruct (Py.float_of_int c) as [cf|e'] eqn:Hc;
    cbn [mbind res_bind] in Hres.
  2:{ injection Hres as <-. by apply float_of_int_raises in Hc. }
  rewrite (float_not_le_zero_not_zero _ Hb) in Hres.
  cbn [mbind res_bind] in Hres. by destruct (2 <=? cf / (sf / 20))%float.
Qed.

(** X12. The only exception that [calc_vwap] and [volume_spike] can raise is
    [OverflowError], from a volume too large for a [float]: neither divides
    by zero and neither indexes out of range. *)
Theorem indicators_raise_overflow_only (e : exn) :
  (∀ prices volumes, calc_vwap prices volumes = Raise e → e = OverflowError)
  ∧ (∀ vols, volume_spike vols = Raise e → e = OverflowError).
Proof.
  split.
  - intros prices volumes. apply calc_vwap_raises_overflow.
  - intros vols. apply volume_spike_raises_overflow.
Qed.

(** The theorem at a volume of [2^1024]. *)
Lemma indicators_raise_overflow_only_witness :
  match calc_vwap [(1, 1, 1)]%float [2 ^ 1024] with
  | Raise e => e = OverflowError
  | Ok _ => False
  end
  ∧ match volume_spike (replicate 24 1 ++ [2 ^ 1024]) with
    | Raise e => e = OverflowError
    | Ok _ => False
    end.
Proof.
  split.
  - destruct (calc_vwap [(1, 1, 1)]%float [2 ^ 1024]) as [r|e] eqn:E.
    + vm_compute in E. discriminate.
    + destruct (indicators_raise_overflow_only e) as [H1 _]. exact (H1 _ _ E).
  - destruct (volume_spike (replicate 24 1 ++ [2 ^ 1024])) as [r|e] eqn:E.
    + vm_compute in E. discriminate.
    + destruct (indicators_raise_overflow_only e) as [_ H2]. exact (H2 _ E).
Defined.

(** ** One cycle of [price_loop] *)

Lemma last_n_app {A} (n : nat) (older l : list A) :
  (n ≤ length l)%nat → Py.last_n n (older ++ l) = Py.last_n n l.
Proof.
  intros Hn. unfold Py.last_n. rewrite length_app.
  rewrite drop_app_ge by lia. f_equal. lia.
Qed.

Section PriceLoop.
Context `{Builtins}.

(** X13. The indicator texts of [price_loop] depend on the most recent 120
    bars only: bars older than that change neither the moving averages
    (last 50 closes), nor the VWAP (last 120 bars), nor the volume spike
    (last 25 volumes). *)
Theorem indicators_use_recent_bars (older_closes closes : list float)
    (older_hlcs hlcs : list hlc) (older_vols vols : list Z)
    (last_close : float) :
  length closes = 120%nat → length hlcs = 120%nat → length vols = 120%nat →
  indicator_txts (older_closes ++ closes, older_hlcs ++ hlcs,
                  older_vols ++ vols, last_close)
  = indicator_txts (closes, hlcs, vols, last_close).
Proof.
  intros Hc Hh Hv. unfold indicator_txts.
  rewrite (last_n_app 50 older_closes closes) by lia.
  rewrite (last_n_app 120 older_hlcs hlcs) by lia.
  rewrite (last_n_app 120 older_vols vols) by lia.
  by rewrite (volume_spike_suffix older_vols vols) by lia.
Qed.


(** X14. The price delta of [price_loop] on a parsed series: with a single
    bar the delta is [0.0] and the marker is the green one; with two bars or
    more the last close is the close of the last bar and the delta is that
    close minus the one before it. *)
Theorem price_change_policy (j : json) (closes : list float) (hlcs : list hlc)
    (vols : list Z) (last_close : float) :
  parse_intraday j = Ok (Some (closes, hlcs, vols, last_close)) →
  (length closes = 1%nat →
   change_of closes last_close = 0%float
   ∧ dot_of (change_of closes last_close) = "🟢")
  ∧ (∀ before a b, closes = before ++ [a; b] →
       last_close = b ∧ change_of closes last_close = (b - a)%float).
Proof.
  intros (d & its & fs & f & _ & _ & _ & Hlast & -> & _ & _ & ->)
    %parse_intraday_result.
  split.
  - intros Hlen. unfold change_of. by rewrite Hlen.
  - intros before a b Hcloses.
    assert (Hb : close_of f = b).
    { pose proof (fmap_last close_of fs) as Hl. rewrite Hlast, Hcloses in Hl.
      replace (before ++ [a; b]) with ((before ++ [a]) ++ [b]) in Hl
        by (by rewrite <- app_assoc).
      rewrite last_snoc in Hl. by injection Hl. }
    split; [done|]. unfold change_of. rewrite Hcloses, Hb, length_app. simpl.
    replace (1 <? length before + 2)%nat with true
      by (symmetry; apply Nat.ltb_lt; lia).
    replace (length before + 2 - 2)%nat with (length before + 0)%nat by lia.
    by rewrite lookup_app_r, Nat.add_0_r, Nat.sub_diag by lia.
Qed.





(** X15. A symbol whose fetch failed, or whose payload does not parse, is
    skipped and changes nothing for the other symbols of the cycle: the
    cycle runs as if the symbol were not in the list. *)
Theorem failed_symbol_is_skipped (polygon_key : option string)
    (before after : list symbol_fetch) (f : symbol_fetch)
    (sent : list string) :
  PyJson.truthy (pf_series f) = false
  ∨ parse_intraday (pf_series f) = Ok None →
  price_step polygon_key f = Ok None
  ∧ price_loop polygon_key (before ++ f :: after) sent
    = price_loop polygon_key (before ++ after) sent.
Proof.
  intros Hfail.
  assert (Hstep : price_step polygon_key f = Ok None).
  { unfold price_step. destruct Hfail as [-> | Hparse]; [done|].
    rewrite Hparse. by destruct (negb _). }
  split; [done|]. revert sent.
  induction before as [|g before IH]; intros sent; cbn [app price_loop].
  - by rewrite Hstep.
  - destruct (price_step polygon_key g) as [[msg|]|]; [apply IH..|done].
Qed.


End PriceLoop.

(** The theorem at 120 flat bars preceded by one older bar. *)
Lemma indicators_use_recent_bars_witness :
  @indicator_txts Sample.builtins
    ([5%float] ++ replicate 120 1%float,
     [(9, 1, 5)%float] ++ replicate 120 (1, 1, 1)%float,
     [1000000] ++ replicate 120 10, 1%float)
  = @indicator_txts Sample.builtins
      (replicate 120 1%float, replicate 120 (1, 1, 1)%float,
       replicate 120 10, 1%float).
Proof.
  apply (@indicators_use_recent_bars Sample.builtins [5%float]
           (replicate 120 1%float) [(9, 1, 5)%float]
           (replicate 120 (1, 1, 1)%float) [1000000] (replicate 120 10)
           1%float); reflexivity.
Defined.

(** The theorem at the three sample bars: the delta is 11 - 10.25. *)
Lemma price_change_policy_witness :
  change_of [9; 10.25; 11]%float 11 = (11 - 10.25)%float.
Proof.
  destruct (@price_change_policy Sample.builtins (JDict (payload three_bars))
              [9; 10.25; 11]%float
              [(10, 8, 9); (11.5, 9.5, 10.25); (12, 10, 11)]%float
              [100; 200; 300] 11%float) as [_ H]; [by vm_compute|].
  exact (proj2 (H [9%float] 10.25%float 11%float eq_refl)).
Defined.

(** The theorem at a cycle whose second symbol could not be fetched. *)
Lemma failed_symbol_is_skipped_witness :
  @price_loop Sample.builtins None
    ([fetch_ok "AAPL"] ++ fetch_failed "MSFT" :: [fetch_ok "SPY"]) []
  = @price_loop Sample.builtins None ([fetch_ok "AAPL"] ++ [fetch_ok "SPY"]) [].
Proof.
  destruct (@failed_symbol_is_skipped Sample.builtins None [fetch_ok "AAPL"]
              [fetch_ok "SPY"] (fetch_failed "MSFT") []) as [_ H];
    [left; reflexivity | exact H].
Defined.


(** The cycle of the last lemma, evaluated. *)
Example cycle_with_huge_volume :
  @price_loop Sample.builtins None
    [fetch_ok "AAPL"; fetch_huge "MSFT"; fetch_ok "SPY"] []
  = (["🟢 **AAPL** 11.00 (+0.75) • VWAP: 10.47"], Some OverflowError).
Proof. by vm_compute. Qed.

(** ** More on the options-flow summary *)

Section OptionsFlowMore.
Context `{Builtins}.

Lemma options_flow_on_results (polygon_key : option string)
    (d : list (string * json)) (results : list json) :
  PyStr.truthy polygon_key = true →
  PyJson.lookup "results" d = Some (JList results) →
  polygon_options_flow polygon_key (JDict d)
  = Ok (if forallb tolerated results then summary results else None).
Proof.
  intros Hkey Hres.
  assert (Htruthy : PyJson.truthy (JDict d) = true) by (by destruct d).
  unfold polygon_options_flow. rewrite Hkey, Htruthy. simpl.
  rewrite (options_flow_body_on_list _ _ Hres).
  destruct (forallb tolerated results) eqn:Hall.
  - rewrite !sum_volume_tolerated by first [done | by left | by right].
    cbn [mbind res_bind try_except]. rewrite !Z.add_0_l. unfold summary.
    by destruct (_ && _).
  - assert (∃ x, x ∈ results ∧ tolerated x = false) as (x & Hin & Hx).
    { clear Hres. induction results as [|y rest IH]; [done|].
      simpl in Hall. apply andb_false_iff in Hall as [Hy|Hrest].
      - exists y. split; [left|done].
      - destruct (IH Hrest) as (x & ? & ?). exists x. split; [by right|done]. }
    destruct (not_tolerated_contribution x Hx) as (e & [He|He]).
    + destruct (sum_volume_raises "call" results 0) as [e' ->];
        [by exists x, e|]. done.
    + destruct (sum_volume_raises "put" results 0) as [e' ->];
        [by exists x, e|].
      by destruct (sum_volume "call" results 0).
Qed.

Lemma total_volume_perm (ty : string) (l l' : list json) :
  l ≡ₚ l' → total_volume ty l = total_volume ty l'.
Proof.
  induction 1 as [|x l l' _ IH|x y l|l l' l'' _ IH1 _ IH2]; simpl;
    [done | by rewrite IH | lia | congruence].
Qed.

Lemma forallb_perm {A} (f : A → bool) (l l' : list A) :
  l ≡ₚ l' → forallb f l = forallb f l'.
Proof.
  induction 1 as [|x l l' _ IH|x y l|l l' l'' _ IH1 _ IH2]; simpl;
    [done | by rewrite IH | by destruct (f x), (f y) | congruence].
Qed.

(** X17. The summary does not depend on the order of the contract records,
    nor on the other keys of the payload: two payloads whose [results] hold
    the same records give the same result, absent or not. *)
Theorem options_flow_order_independent (polygon_key : option string)
    (d d' : list (string * json)) (results results' : list json) :
  PyJson.lookup "results" d = Some (JList results) →
  PyJson.lookup "results" d' = Some (JList results') →
  results ≡ₚ results' →
  polygon_options_flow polygon_key (JDict d)
  = polygon_options_flow polygon_key (JDict d').
Proof.
  intros Hd Hd' Hperm.
  destruct (PyStr.truthy polygon_key) eqn:Hkey.
  - rewrite (options_flow_on_results _ _ _ Hkey Hd).
    rewrite (options_flow_on_results _ _ _ Hkey Hd').
    rewrite (forallb_perm _ _ _ Hperm). unfold summary.
    by rewrite !(total_volume_perm _ _ _ Hperm).
  - unfold polygon_options_flow. by rewrite Hkey.
Qed.

(** X18. [polygon_options_flow] never returns the vacuous summary: when it
    returns totals, one of the two is not zero. *)
Theorem options_flow_never_vacuous (polygon_key : option string) (data : json)
    (calls puts : Z) :
  polygon_options_flow polygon_key data = Ok (Some (calls, puts)) →
  calls ≠ 0 ∨ puts ≠ 0.
Proof.
  unfold polygon_options_flow, try_except.
  destruct (negb (PyStr.truthy polygon_key)); [done|].
  destruct (negb (PyJson.truthy data)); [done|].
  destruct (options_flow_body data) as [r|] eqn:Hbody; [|done].
  intros [= ->]. revert Hbody. unfold options_flow_body.
  destruct (PyJson.get data "results" JNull) as [r|]; [|done].
  cbn [mbind res_bind].
  destruct (PyJson.iter _) as [results|]; [|done]. cbn [mbind res_bind].
  destruct (sum_volume "call" results 0) as [c|]; [|done].
  cbn [mbind res_bind].
  destruct (sum_volume "put" results 0) as [p|]; [|done].
  cbn [mbind res_bind].
  destruct (Z.eqb_spec c 0) as [->|Hc]; destruct (Z.eqb_spec p 0) as [->|Hp];
    simpl; intros [= <- <-]; auto.
Qed.

End OptionsFlowMore.

(** The theorem at two payloads that list the same three contracts in
    another order. *)
Lemma options_flow_order_independent_witness :
  @polygon_options_flow Sample.builtins (Some "key")
    (snapshot [contract "call" (JInt 50); contract "put" (JInt 30);
               contract_no_volume "call"])
  = @polygon_options_flow Sample.builtins (Some "key")
      (JDict [("results", JList [contract_no_volume "call";
                                 contract "put" (JInt 30);
                                 contract "call" (JInt 50)])]).
Proof.
  apply (@options_flow_order_independent Sample.builtins (Some "key") _ _
           [contract "call" (JInt 50); contract "put" (JInt 30);
            contract_no_volume "call"]
           [contract_no_volume "call"; contract "put" (JInt 30);
            contract "call" (JInt 50)]);
    [reflexivity | reflexivity |].
  etrans; [apply Permutation_swap|]. etrans; [|apply Permutation_swap].
  apply perm_skip. apply Permutation_swap.
Defined.

(** The theorem at the contracts call 50, put 30. *)
Lemma options_flow_never_vacuous_witness :
  @polygon_options_flow Sample.builtins (Some "key")
    (snapshot [contract "call" (JInt 50); contract "put" (JInt 30)])
  = Ok (Some (50, 30))
  ∧ (50 ≠ 0 ∨ 30 ≠ 0).
Proof.
  split; [reflexivity|].
  apply (@options_flow_never_vacuous Sample.builtins (Some "key")
           (snapshot [contract "call" (JInt 50); contract "put" (JInt 30)])
           50 30).
  reflexivity.
Defined.
